(** * fast_animate: blitting redraw manager and the renderer / producer pair

    A shallow embedding of [src/fast_animate.py].

    The program drives a GUI toolkit.  The toolkit is not part of the
    program: its calls ([copy_from_bbox], [restore_region], [draw_artist],
    [blit], [flush_events], ...) are modelled as entries appended to a
    chronological call log, and the objects it hands out (canvases,
    figures, artists, captured regions) as identities plus the attributes
    the program reads or writes.  Artists are mutable objects shared
    between the renderer and the manager, so they live in a store indexed
    by reference.

    The program raises [RuntimeError] and never catches it: methods are
    computations in a state-and-exception monad over the [BlitManager]
    object and the toolkit.

    Draw events are emitted by the toolkit, and only while its event loop
    runs; how many it emits there is not the program's doing and is a
    parameter of the renderer.  The two processes meet at the queue only:
    the producer never waits on an unbounded queue and the renderer sees
    the vectors in the order they were put, so a session is the producer's
    actions together with the renderer's run on the vectors put. *)

From stdpp Require Import gmap strings list pretty.

Section Model.

(** One reading of the sensor.  The program never inspects a reading; it
    only measures the length of a vector of them. *)
Context {sample : Type}.
(** The reading [np.zeros] fills a vector with. *)
Variable zero : sample.

Definition vector : Type := list sample.

(** ** Toolkit objects *)

(** A figure is an object compared by identity. *)
Definition Figure : Type := nat.

(** A canvas is an object compared by identity ([canvas_id]); it carries
    the figure it displays. *)
Record Canvas : Type := { canvas_id : nat; figure : Figure }.

(** [event.canvas != cv]: neither class defines [__eq__], the comparison
    is on identity. *)
Definition canvas_ne (a b : Canvas) : bool := negb (canvas_id a =? canvas_id b).

(** [fig.bbox] *)
Inductive Bbox : Type := FigureBbox (fig : Figure).
Definition bbox (fig : Figure) : Bbox := FigureBbox fig.

(** The region object returned by [copy_from_bbox]: every call returns a
    new object, identified by the number of captures made before it. *)
Definition Region : Type := nat.

(** The event object passed to a ["draw_event"] callback. *)
Record DrawEvent : Type := { event_canvas : Canvas }.

(** References to artist objects. *)
Definition ref : Type := nat.

Inductive Shape : Type :=
| Line2D (ydata : vector)
| Annotation (text : string).

(** [art_figure] is [None] for an artist that was never put in a figure. *)
Record Artist : Type :=
  { art_figure : option Figure; animated : bool; shape : Shape }.

(** [a != b] on figure attributes (identity; [None] differs from every
    figure). *)
Definition figure_ne (a b : option Figure) : bool :=
  match a, b with
  | Some x, Some y => negb (x =? y)
  | None, None => false
  | _, _ => true
  end.

(** Calls into the toolkit (and to [print]), in the order they are
    issued. *)
Inductive Call : Type :=
| MplConnect (cv : Canvas) (signal : string)
| CopyFromBbox (cv : Canvas) (b : Bbox)
| RestoreRegion (cv : Canvas) (bg : Region)
| DrawArtist (fig : Figure) (a : ref)
| Blit (cv : Canvas) (b : Bbox)
| FlushEvents (cv : Canvas)
| SetAnimated (a : ref) (b : bool)
| SetYdata (a : ref) (d : vector)
| SetText (a : ref) (s : string)
| MatplotlibUse (backend : string)
| PltShow
| PltPause
| PltClose
| Print (s : string).

Definition is_capture (c : Call) : bool :=
  match c with CopyFromBbox _ _ => true | _ => false end.
Definition is_connect (c : Call) : bool :=
  match c with MplConnect _ _ => true | _ => false end.
Definition is_blit (c : Call) : bool :=
  match c with Blit _ _ => true | _ => false end.
Definition is_flush (c : Call) : bool :=
  match c with FlushEvents _ => true | _ => false end.
Definition is_close (c : Call) : bool :=
  match c with PltClose => true | _ => false end.

(** Number of background captures recorded in a call log. *)
Definition captures (l : list Call) : nat := length (filter is_capture l).
Definition connections (l : list Call) : nat := length (filter is_connect l).
(** The vectors handed to [set_ydata] and the texts handed to [set_text],
    oldest first. *)
Definition ydatas (l : list Call) : list vector :=
  omap (fun c => match c with SetYdata _ d => Some d | _ => None end) l.
Definition texts (l : list Call) : list string :=
  omap (fun c => match c with SetText _ s => Some s | _ => None end) l.

(** ** Program state *)

(** The attributes of a [BlitManager] object.  [cid] is unset until the
    last statement of [__init__]. *)
Record BlitManager : Type :=
  { canvas : Canvas; _bg : option Region; _artists : list ref; cid : option nat }.

Record Toolkit : Type :=
  { artists : gmap ref Artist; calls : list Call }.

Record World : Type := { self : BlitManager; toolkit : Toolkit }.

(** ** Exceptions and state *)

Inductive exn : Type := RuntimeError.

Inductive result (A : Type) : Type :=
| Ok (a : A) (w : World)
| Raise (e : exn) (w : World).
Arguments Ok {A} a w.
Arguments Raise {A} e w.

Definition M (A : Type) : Type := World -> result A.

Definition ret {A} (a : A) : M A := fun w => Ok a w.
Definition raise {A} (e : exn) : M A := fun w => Raise e w.
Definition bind {A B} (m : M A) (k : A -> M B) : M B :=
  fun w => match m w with
           | Ok a w' => k a w'
           | Raise e w' => Raise e w'
           end.

Notation "'let!' x ':=' m 'in' k" := (bind m (fun x => k))
  (at level 10, x name, m at level 100, k at level 200).
Notation "m >>> k" := (bind m (fun _ => k))
  (at level 90, right associativity).

(** [for x in l: body(x)] *)
Fixpoint for_each {A} (l : list A) (body : A -> M unit) : M unit :=
  match l with
  | [] => ret tt
  | x :: l' => body x >>> for_each l' body
  end.

(** Attribute reads and writes on [self]. *)
Definition attr {A} (f : BlitManager -> A) : M A := fun w => Ok (f (self w)) w.

Definition with_bg (bg : option Region) (w : World) : World :=
  let s := self w in
  {| self := {| canvas := canvas s; _bg := bg;
                _artists := _artists s; cid := cid s |};
     toolkit := toolkit w |}.

Definition set_bg (bg : option Region) : M unit := fun w => Ok tt (with_bg bg w).

Definition append_artist (art : ref) : M unit := fun w =>
  let s := self w in
  Ok tt {| self := {| canvas := canvas s; _bg := _bg s;
                      _artists := _artists s ++ [art]; cid := cid s |};
           toolkit := toolkit w |}.

Definition set_cid (c : nat) : M unit := fun w =>
  let s := self w in
  Ok tt {| self := {| canvas := canvas s; _bg := _bg s;
                      _artists := _artists s; cid := Some c |};
           toolkit := toolkit w |}.

(** Toolkit calls: each one is appended to the log. *)
Definition logged (l : list Call) (w : World) : World :=
  {| self := self w;
     toolkit := {| artists := artists (toolkit w);
                   calls := calls (toolkit w) ++ l |} |}.

Definition call (c : Call) : M unit := fun w => Ok tt (logged [c] w).

Definition copy_from_bbox (cv : Canvas) (b : Bbox) : M Region := fun w =>
  Ok (captures (calls (toolkit w))) (logged [CopyFromBbox cv b] w).

Definition mpl_connect (cv : Canvas) (signal : string) : M nat := fun w =>
  Ok (connections (calls (toolkit w))) (logged [MplConnect cv signal] w).

(** Attribute reads and method calls on artists.  A method call is logged
    and changes the object in the store. *)
Definition figure_of (tk : Toolkit) (art : ref) : option Figure :=
  a ← artists tk !! art; art_figure a.

Definition get_figure (art : ref) : M (option Figure) := fun w =>
  Ok (figure_of (toolkit w) art) w.

Definition alter_artist (f : Artist -> Artist) (art : ref) (w : World) : World :=
  {| self := self w;
     toolkit := {| artists := alter f art (artists (toolkit w));
                   calls := calls (toolkit w) |} |}.

Definition mark_animated (b : bool) (a : Artist) : Artist :=
  {| art_figure := art_figure a; animated := b; shape := shape a |}.

Definition put_ydata (d : vector) (a : Artist) : Artist :=
  {| art_figure := art_figure a; animated := animated a;
     shape := match shape a with
              | Line2D _ => Line2D d
              | sh => sh
              end |}.

Definition put_text (s : string) (a : Artist) : Artist :=
  {| art_figure := art_figure a; animated := animated a;
     shape := match shape a with
              | Annotation _ => Annotation s
              | sh => sh
              end |}.

Definition set_animated (art : ref) (b : bool) : M unit := fun w =>
  Ok tt (alter_artist (mark_animated b) art (logged [SetAnimated art b] w)).

Definition set_ydata (art : ref) (d : vector) : M unit := fun w =>
  Ok tt (alter_artist (put_ydata d) art (logged [SetYdata art d] w)).

Definition set_text (art : ref) (s : string) : M unit := fun w =>
  Ok tt (alter_artist (put_text s) art (logged [SetText art s] w)).

(** ** class BlitManager *)

(** [BlitManager._draw_animated] *)
Definition _draw_animated : M unit :=
  let! cv := attr canvas in
  let fig := figure cv in
  let! arts := attr _artists in
  for_each arts (fun a => call (DrawArtist fig a)).

(** [BlitManager.on_draw] *)
Definition on_draw (event : option DrawEvent) : M unit :=
  let! cv := attr canvas in
  match event with
  | Some ev => if canvas_ne (event_canvas ev) cv then raise RuntimeError else ret tt
  | None => ret tt
  end >>>
  let! bg := copy_from_bbox cv (bbox (figure cv)) in
  set_bg (Some bg) >>>
  _draw_animated.

(** [BlitManager.add_artist] *)
Definition add_artist (art : ref) : M unit :=
  let! cv := attr canvas in
  let! fig := get_figure art in
  if figure_ne fig (Some (figure cv)) then raise RuntimeError
  else
    set_animated art true >>>
    append_artist art.

(** [BlitManager.update] *)
Definition update : M unit :=
  let! cv := attr canvas in
  let fig := figure cv in
  let! bg := attr _bg in
  match bg with
  | None => on_draw None
  | Some r =>
      call (RestoreRegion cv r) >>>
      _draw_animated >>>
      call (Blit cv (bbox fig))
  end >>>
  call (FlushEvents cv).

(** [BlitManager.__init__]: the new object starts from the three
    assignments at the top of the constructor. *)
Definition __init__ (cv : Canvas) (animated_artists : list ref) (tk : Toolkit)
  : result unit :=
  (for_each animated_artists add_artist >>>
   let! c := mpl_connect cv "draw_event" in
   set_cid c)
    {| self := {| canvas := cv; _bg := None; _artists := []; cid := None |};
       toolkit := tk |}.

(** ** Callers of the manager *)

(** What can happen to a constructed manager: the toolkit emits a draw
    event and runs the connected callback [on_draw] on it, or the client
    calls [update]. *)
Inductive Op : Type :=
| Draw (event : DrawEvent)
| Update.

Definition step (op : Op) : M unit :=
  match op with
  | Draw ev => on_draw (Some ev)
  | Update => update
  end.

Definition run (ops : list Op) : M unit := for_each ops step.

(** The toolkit running its event loop ([plt.pause], or the events
    processed by [flush_events]) emits [n] draw events from the canvas
    the manager connected to. *)
Fixpoint dispatch_draws (n : nat) : M unit :=
  match n with
  | 0 => ret tt
  | S n' =>
      let! cv := attr canvas in
      on_draw (Some {| event_canvas := cv |}) >>>
      dispatch_draws n'
  end.

(** ** The renderer process *)

Inductive Outcome : Type :=
| Exited                (* fell out of the loop through [break] *)
| Blocked               (* [thermistor_queue.get()] never returns *)
| Crashed (e : exn).    (* an exception escaped *)

(** The local variables of [animated_plot_process], the vectors left
    unread in the queue, and the objects of the process. *)
Record Renderer : Type :=
  { frame_num : nat;
    data : vector;
    ln : ref;
    fr_number : ref;
    unread : list vector;
    world : World }.

(** ["frame: {j}".format(j=frame_num)] *)
Definition frame_label (j : nat) : string := "frame: " +:+ pretty j.

(** The [while True] loop.  [thermistor_queue] is everything the queue
    will ever deliver, in order; [get] on an exhausted queue blocks for
    ever.  [draws j] is the number of draw events the toolkit emits while
    it flushes its events at the end of the [update] of frame [j]. *)
Fixpoint render_loop (draws : nat -> nat) (thermistor_queue : list vector)
    (r : Renderer) : Outcome * Renderer :=
  match thermistor_queue with
  | [] => (Blocked, r)
  | d :: rest =>
      let frame_num' := frame_num r + 1 in
      if length d =? 0 then
        match (call (Print "Breaking...") >>> call PltClose) (world r) with
        | Ok _ w =>
            (Exited, {| frame_num := frame_num'; data := d; ln := ln r;
                        fr_number := fr_number r; unread := rest; world := w |})
        | Raise e w =>
            (Crashed e, {| frame_num := frame_num'; data := d; ln := ln r;
                           fr_number := fr_number r; unread := rest; world := w |})
        end
      else
        match (set_ydata (ln r) d >>>
               set_text (fr_number r) (frame_label frame_num') >>>
               update >>>
               dispatch_draws (draws frame_num')) (world r) with
        | Ok _ w =>
            render_loop draws rest
              {| frame_num := frame_num'; data := d; ln := ln r;
                 fr_number := fr_number r; unread := rest; world := w |}
        | Raise e w =>
            (Crashed e, {| frame_num := frame_num'; data := d; ln := ln r;
                           fr_number := fr_number r; unread := rest; world := w |})
        end
  end.

(** [animated_plot_process].  The log starts with the selection of the
    backend.  [plt.subplots()] creates the figure and its canvas; [ax.plot]
    and [ax.annotate] create the two artists in that figure, both with
    [animated=True], the line over [np.zeros((n_samples,))] and the label
    reading ["0"].  [draws 0] is the number of draw events emitted while
    [plt.pause(1)] runs the event loop. *)
Definition animated_plot_process (draws : nat -> nat)
    (thermistor_queue : list vector) (n_samples : nat) : Outcome * Renderer :=
  let backend := [MatplotlibUse "Qt5Agg"] in
  let frame_num := 0 in
  let data := replicate n_samples zero in
  let fig : Figure := 0 in
  let fig_canvas := {| canvas_id := 0; figure := fig |} in
  let ln : ref := 0 in
  let fr_number : ref := 1 in
  let tk :=
    {| artists :=
         <[fr_number := {| art_figure := Some fig; animated := true;
                           shape := Annotation "0" |}]>
           (<[ln := {| art_figure := Some fig; animated := true;
                       shape := Line2D data |}]> ∅);
       calls := backend |} in
  match __init__ fig_canvas [ln; fr_number] tk with
  | Raise e w =>
      (Crashed e, {| frame_num := frame_num; data := data; ln := ln;
                     fr_number := fr_number; unread := thermistor_queue;
                     world := w |})
  | Ok _ bm =>
      match (call PltShow >>> call PltPause >>> dispatch_draws (draws 0)) bm with
      | Raise e w =>
          (Crashed e, {| frame_num := frame_num; data := data; ln := ln;
                         fr_number := fr_number; unread := thermistor_queue;
                         world := w |})
      | Ok _ w =>
          render_loop draws thermistor_queue
            {| frame_num := frame_num; data := data; ln := ln;
               fr_number := fr_number; unread := thermistor_queue; world := w |}
      end
  end.

(** ** The producer *)

(** What [main] does, in program order. *)
Inductive Action : Type :=
| Start                      (* [animate_process.start()] *)
| Put (v : vector)           (* [data_queue.put(v)] *)
| PrintLatency               (* [print(time.time() - t1)] *)
| Join                       (* [animate_process.join()] returned *)
| PrintExitcode (code : nat) (* [print(animate_process.exitcode)] *)
| PrintLine (s : string).

(** [np.random.random((n_samples,))] at the [j]th iteration; [rnd j i] is
    the [i]th number drawn there. *)
Definition random (rnd : nat -> nat -> sample) (j n_samples : nat) : vector :=
  map (rnd j) (seq 0 n_samples).

(** The vectors put on the queue, oldest first. *)
Definition puts (l : list Action) : list vector :=
  omap (fun a => match a with Put v => Some v | _ => None end) l.

(** The exit code of a child process: 0 when its target returned, 1 when
    an exception escaped it, none while it is running. *)
Definition exitcode (o : Outcome) : option nat :=
  match o with
  | Exited => Some 0
  | Crashed _ => Some 1
  | Blocked => None
  end.

Record MainRun : Type :=
  { actions : list Action;
    renderer : Outcome * Renderer }.

(** [main].  The queue is unbounded, so no [put] waits for the renderer;
    the renderer sees the vectors in the order they were put; [join]
    returns once the renderer has exited and not before. *)
Definition main (rnd : nat -> nat -> sample) (draws : nat -> nat) : MainRun :=
  let n_samples := 400 in
  let started := [Start] in
  let produced :=
    foldl (fun acts j =>
             let data := random rnd j n_samples in
             acts ++ [Put data; PrintLatency])
          started (seq 0 100) in
  let sent := produced ++ [Put []] in
  let animate_process := animated_plot_process draws (puts sent) n_samples in
  match exitcode (fst animate_process) with
  | Some code =>
      {| actions := sent ++ [Join; PrintExitcode code;
                             PrintLine "finished animate process"];
         renderer := animate_process |}
  | None => {| actions := sent; renderer := animate_process |}
  end.


(** ** Sequences of method calls *)

(** The methods a client or the toolkit can call on a constructed manager,
    in any order. *)
Inductive Method : Type :=
| AddArtist (art : ref)
| OnDraw (event : option DrawEvent)
| UpdateCall.

Definition invoke (m : Method) : M unit :=
  match m with
  | AddArtist art => add_artist art
  | OnDraw event => on_draw event
  | UpdateCall => update
  end.

Definition session (ms : list Method) : M unit := for_each ms invoke.

(** The state a computation ends in, whether it returned or raised. *)
Definition final_world {A} (res : result A) : World :=
  match res with
  | Ok _ w => w
  | Raise _ w => w
  end.

(** ** Vocabulary of the properties *)

(** The calls one run of [on_draw] issues. *)
Definition on_draw_calls (s : BlitManager) : list Call :=
  CopyFromBbox (canvas s) (bbox (figure (canvas s)))
    :: map (DrawArtist (figure (canvas s))) (_artists s).

(** The calls one run of [update] issues. *)
Definition update_calls (s : BlitManager) : list Call :=
  match _bg s with
  | None => on_draw_calls s
  | Some r =>
      RestoreRegion (canvas s) r
        :: map (DrawArtist (figure (canvas s))) (_artists s)
        ++ [Blit (canvas s) (bbox (figure (canvas s)))]
  end ++ [FlushEvents (canvas s)].

(** The event, if there is one, comes from the canvas [cv]. *)
Definition from_managed (event : option DrawEvent) (cv : Canvas) : Prop :=
  match event with
  | Some ev => canvas_id (event_canvas ev) = canvas_id cv
  | None => True
  end.

(** If the operation is a draw event, it comes from the canvas [cv]. *)
Definition managed (cv : Canvas) (op : Op) : Prop :=
  match op with
  | Draw ev => from_managed (Some ev) cv
  | Update => True
  end.

(** The full redraws of a run: one per draw event, and the one [update]
    forces when it finds no snapshot.  [has_bg] tells whether a snapshot
    exists when the run starts. *)
Fixpoint full_redraws (has_bg : bool) (ops : list Op) : nat :=
  match ops with
  | [] => 0
  | Draw _ :: ops' => S (full_redraws true ops')
  | Update :: ops' => (if has_bg then 0 else 1) + full_redraws true ops'
  end.

Definition has_snapshot (s : BlitManager) : bool :=
  match _bg s with Some _ => true | None => false end.

(** The artist is in the figure of the canvas of the manager. *)
Definition belongs (w : World) (art : ref) : Prop :=
  figure_of (toolkit w) art = Some (figure (canvas (self w))).

(** The state a successful [add_artist] leaves. *)
Definition registered (w : World) (art : ref) : World :=
  {| self := {| canvas := canvas (self w); _bg := _bg (self w);
                _artists := _artists (self w) ++ [art]; cid := cid (self w) |};
     toolkit := {| artists := alter (mark_animated true) art (artists (toolkit w));
                   calls := calls (toolkit w) ++ [SetAnimated art true] |} |}.

(** The calls of [n] consecutive runs of [update] that find the snapshot
    [r]. *)
Definition blit_frames (s : BlitManager) (r : Region) (n : nat) : list Call :=
  concat (replicate n
            (RestoreRegion (canvas s) r
               :: map (DrawArtist (figure (canvas s))) (_artists s)
               ++ [Blit (canvas s) (bbox (figure (canvas s)));
                   FlushEvents (canvas s)])).

(** The calls the manager issues while it redraws. *)
Definition manager_call (c : Call) : bool :=
  match c with
  | CopyFromBbox _ _ | RestoreRegion _ _ | DrawArtist _ _ | Blit _ _
  | FlushEvents _ => true
  | _ => false
  end.

(** Number of [flush_events] calls in a log: [update] ends with one, and
    nothing else issues any. *)
Definition flushes (l : list Call) : nat := length (filter is_flush l).

(** Number of [plt.close] calls in a log. *)
Definition closes (l : list Call) : nat := length (filter is_close l).

(** A data frame, as opposed to the sentinel. *)
Definition is_frame (d : vector) : Prop := length d <> 0.

(** Number of [blit] calls in a log. *)
Definition blits (l : list Call) : nat := length (filter is_blit l).

(** The method call passes the test it starts with: the artist is in the
    managed figure, the event comes from the managed canvas. *)
Definition accepted (w : World) (m : Method) : Prop :=
  match m with
  | AddArtist art => belongs w art
  | OnDraw event => from_managed event (canvas (self w))
  | UpdateCall => True
  end.

(** The snapshot the manager holds, if any, is the region of the latest
    [copy_from_bbox] of the log. *)
Definition snapshot_latest (w : World) : Prop :=
  forall r, _bg (self w) = Some r -> S r = captures (calls (toolkit w)).

(** The artists a sequence of method calls asks to register. *)
Definition added (ms : list Method) : list ref :=
  omap (fun m => match m with AddArtist a => Some a | _ => None end) ms.

(** The calls the methods of a manager issue: those of a redraw, and
    [set_animated(True)]. *)
Definition session_call (c : Call) : bool :=
  match c with
  | SetAnimated _ true => true
  | _ => manager_call c
  end.

(** What method calls may change between two states: the list of animated
    artists and the log grow at the end, an artist of the list may have
    been set animated, and the canvas, the connection id and the figure of
    every artist stay. *)
Definition evolves (w w' : World) : Prop :=
  canvas (self w') = canvas (self w)
  /\ cid (self w') = cid (self w)
  /\ (exists more, _artists (self w') = _artists (self w) ++ more)
  /\ (exists new, calls (toolkit w') = calls (toolkit w) ++ new
                  /\ forallb session_call new = true)
  /\ (forall a, figure_of (toolkit w') a = figure_of (toolkit w) a)
  /\ (forall a,
        artists (toolkit w') !! a = artists (toolkit w) !! a
        \/ (a ∈ _artists (self w')
            /\ artists (toolkit w') !! a
               = mark_animated true <$> artists (toolkit w) !! a)).

(** What the window shows: the curve [d] on the line artist [a] and the
    text [s] on the label [b]. *)
Definition shows (w : World) (a b : ref) (d : vector) (s : string) : Prop :=
  shape <$> artists (toolkit w) !! a = Some (Line2D d)
  /\ shape <$> artists (toolkit w) !! b = Some (Annotation s).

(** Draw events emitted in the event-loop runs [0 .. k]. *)
Definition draws_upto (draws : nat -> nat) (k : nat) : nat :=
  sum_list (map draws (seq 0 (S k))).

(** ** Sample states *)

(** The canvas and the manager of the renderer once its window has been
    drawn: two animated artists, the first capture as snapshot. *)
Definition demo_canvas : Canvas := {| canvas_id := 0; figure := 0 |}.

(** Another window, showing another figure. *)
Definition other_canvas : Canvas := {| canvas_id := 1; figure := 1 |}.

Definition demo_toolkit (log : list Call) : Toolkit :=
  {| artists :=
       <[1 := {| art_figure := Some 0; animated := true; shape := Annotation "0" |}]>
         (<[0 := {| art_figure := Some 0; animated := true; shape := Line2D [] |}]>
            (<[2 := {| art_figure := Some 1; animated := false;
                       shape := Annotation "elsewhere" |}]> ∅));
     calls := log |}.

Definition demo_world : World :=
  {| self := {| canvas := demo_canvas; _bg := Some 0; _artists := [0; 1];
                cid := Some 0 |};
     toolkit := demo_toolkit [MplConnect demo_canvas "draw_event";
                              CopyFromBbox demo_canvas (bbox 0);
                              DrawArtist 0 0; DrawArtist 0 1] |}.

(** The same manager before any draw event reached it. *)
Definition fresh_world : World :=
  {| self := {| canvas := demo_canvas; _bg := None; _artists := [0; 1];
                cid := Some 0 |};
     toolkit := demo_toolkit [MplConnect demo_canvas "draw_event"] |}.

(** * Properties *)

(** ** The call log *)

Lemma logged_nil w : logged [] w = w.
Proof.
  destruct w as [s [a c]]. unfold logged. simpl. by rewrite app_nil_r.
Qed.

Lemma logged_logged l1 l2 w : logged l2 (logged l1 w) = logged (l1 ++ l2) w.
Proof. unfold logged. simpl. by rewrite app_assoc. Qed.

Lemma captures_app l1 l2 : captures (l1 ++ l2) = captures l1 + captures l2.
Proof. unfold captures. by rewrite filter_app, length_app. Qed.

Lemma captures_draws fig (arts : list ref) : captures (map (DrawArtist fig) arts) = 0.
Proof. induction arts as [|a arts IH]; [done|]. exact IH. Qed.

Lemma captures_cons c l :
  captures (c :: l) = (if is_capture c then 1 else 0) + captures l.
Proof. by destruct c. Qed.

Lemma captures_blit_frames s r n : captures (blit_frames s r n) = 0.
Proof.
  unfold blit_frames. induction n as [|n IH]; [done|].
  simpl. rewrite captures_cons, !captures_app, IH, captures_draws.
  done.
Qed.

Lemma captures_on_draw_calls s : captures (on_draw_calls s) = 1.
Proof.
  unfold on_draw_calls.
  change (captures (CopyFromBbox ?c ?b :: ?l)) with (S (captures l)).
  by rewrite captures_draws.
Qed.

Lemma captures_update_calls s :
  captures (update_calls s) = if has_snapshot s then 0 else 1.
Proof.
  unfold update_calls, has_snapshot. destruct (_bg s) as [r|].
  - rewrite captures_app.
    change (captures (RestoreRegion ?c ?b :: ?l)) with (captures l).
    rewrite captures_app, captures_draws. done.
  - rewrite captures_app, captures_on_draw_calls. done.
Qed.

Lemma for_each_call {A} (f : A -> Call) (l : list A) w :
  for_each l (fun a => call (f a)) w = Ok tt (logged (map f l) w).
Proof.
  revert w. induction l as [|x l IH]; intros w; simpl.
  - unfold ret. by rewrite logged_nil.
  - unfold bind, call. rewrite IH. by rewrite logged_logged.
Qed.

(** ** What the methods of the manager do *)

Lemma _draw_animated_eq w :
  _draw_animated w
  = Ok tt (logged (map (DrawArtist (figure (canvas (self w)))) (_artists (self w))) w).
Proof. unfold _draw_animated, bind, attr. apply for_each_call. Qed.

Lemma canvas_ne_false a b : canvas_ne a b = false <-> canvas_id a = canvas_id b.
Proof.
  unfold canvas_ne. rewrite negb_false_iff. apply Nat.eqb_eq.
Qed.

Lemma canvas_ne_true a b : canvas_ne a b = true <-> canvas_id a <> canvas_id b.
Proof.
  unfold canvas_ne. rewrite negb_true_iff. apply Nat.eqb_neq.
Qed.

Lemma on_draw_eq event w :
  from_managed event (canvas (self w)) ->
  on_draw event w
  = Ok tt (logged (on_draw_calls (self w))
             (with_bg (Some (captures (calls (toolkit w)))) w)).
Proof.
  intros Hev. unfold on_draw, bind, attr.
  assert (Hgate : match event with
                  | Some ev =>
                      if canvas_ne (event_canvas ev) (canvas (self w))
                      then raise RuntimeError else ret tt
                  | None => ret tt
                  end w = Ok tt w).
  { destruct event as [ev|]; [|done]. simpl in Hev.
    apply canvas_ne_false in Hev. by rewrite Hev. }
  rewrite Hgate. unfold copy_from_bbox, set_bg.
  rewrite _draw_animated_eq. simpl.
  unfold on_draw_calls, with_bg, logged. simpl. by rewrite <- app_assoc.
Qed.

Lemma update_eq w :
  update w
  = Ok tt (logged (update_calls (self w))
             (match _bg (self w) with
              | None => with_bg (Some (captures (calls (toolkit w)))) w
              | Some _ => w
              end)).
Proof.
  unfold update, update_calls, bind, attr.
  destruct (_bg (self w)) as [r|] eqn:Hbg.
  - unfold call at 1. rewrite _draw_animated_eq. unfold call.
    rewrite !logged_logged. simpl. by rewrite <- !app_assoc.
  - rewrite on_draw_eq by done. unfold call. by rewrite logged_logged.
Qed.

(** ** The redraw manager *)

(** C7: on a draw event from the managed canvas, [on_draw] captures a new
    background region (one more [copy_from_bbox] in the log, never handed
    out before) and then draws every animated artist, in the order they
    were registered; nothing else changes. *)
Theorem on_draw_captures_then_renders (ev : DrawEvent) (w : World) :
  canvas_id (event_canvas ev) = canvas_id (canvas (self w)) ->
  exists w',
    on_draw (Some ev) w = Ok tt w'
    /\ calls (toolkit w')
       = calls (toolkit w)
           ++ CopyFromBbox (canvas (self w)) (bbox (figure (canvas (self w))))
           :: map (DrawArtist (figure (canvas (self w)))) (_artists (self w))
    /\ _bg (self w') = Some (captures (calls (toolkit w)))
    /\ captures (calls (toolkit w')) = S (captures (calls (toolkit w)))
    /\ (forall r, r < captures (calls (toolkit w)) -> _bg (self w') <> Some r)
    /\ canvas (self w') = canvas (self w)
    /\ _artists (self w') = _artists (self w)
    /\ artists (toolkit w') = artists (toolkit w).
Proof.
  intros Hev. eexists. split; [by apply on_draw_eq|].
  simpl. repeat split; try done.
  - rewrite captures_app, captures_on_draw_calls. lia.
  - intros r Hr Heq. injection Heq as Heq. lia.
Qed.

(** C10: without an event the identity check is not run: [on_draw None]
    never raises, whatever the state; it captures a region and draws the
    animated artists. *)
Theorem on_draw_None_never_raises (w : World) :
  (forall e w', on_draw None w <> Raise e w')
  /\ exists w',
      on_draw None w = Ok tt w'
      /\ calls (toolkit w')
         = calls (toolkit w)
             ++ CopyFromBbox (canvas (self w)) (bbox (figure (canvas (self w))))
             :: map (DrawArtist (figure (canvas (self w)))) (_artists (self w))
      /\ _bg (self w') = Some (captures (calls (toolkit w)))
      /\ captures (calls (toolkit w')) = S (captures (calls (toolkit w))).
Proof.
  rewrite on_draw_eq by done. split; [done|].
  eexists. split; [done|]. simpl. repeat split.
  rewrite captures_app, captures_on_draw_calls. lia.
Qed.

(** C6: a draw event from another canvas makes [on_draw] raise
    [RuntimeError] at once: the state is the one it was called in (no
    capture, no drawing), and no statement sequenced after the call is
    run: the exception ends every run it occurs in. *)
Theorem on_draw_foreign_canvas_raises (ev : DrawEvent) (w : World) :
  canvas_id (event_canvas ev) <> canvas_id (canvas (self w)) ->
  on_draw (Some ev) w = Raise RuntimeError w
  /\ (forall (B : Type) (k : unit -> M B),
        bind (on_draw (Some ev)) k w = Raise RuntimeError w)
  /\ (forall ops, run (Draw ev :: ops) w = Raise RuntimeError w).
Proof.
  intros Hev. apply canvas_ne_true in Hev.
  assert (H : on_draw (Some ev) w = Raise RuntimeError w).
  { unfold on_draw, bind, attr. by rewrite Hev. }
  split; [done|]. split.
  - intros B k. unfold bind. by rewrite H.
  - intros ops. unfold run. simpl. unfold bind. by rewrite H.
Qed.

(** C4: with a snapshot [r] in place, [update] restores [r], draws every
    animated artist in the order they were registered, blits the bounding
    box of the figure and flushes the events, in that order, and leaves
    the manager as it was. *)
Theorem update_restores_draws_blits_flushes (w : World) (r : Region) :
  _bg (self w) = Some r ->
  exists w',
    update w = Ok tt w'
    /\ calls (toolkit w')
       = calls (toolkit w)
           ++ [RestoreRegion (canvas (self w)) r]
           ++ map (DrawArtist (figure (canvas (self w)))) (_artists (self w))
           ++ [Blit (canvas (self w)) (bbox (figure (canvas (self w))));
               FlushEvents (canvas (self w))]
    /\ self w' = self w
    /\ artists (toolkit w') = artists (toolkit w).
Proof.
  intros Hbg. eexists. split; [apply update_eq|].
  unfold update_calls. rewrite Hbg. simpl. repeat split.
  by rewrite <- app_assoc.
Qed.

(** C9: [update] never raises and always leaves a snapshot behind.  When
    it finds none it captures one, draws the animated artists and flushes
    the events, without any blit; when it finds one it restores it, draws,
    blits and flushes.  So its calls contain a blit exactly when a
    snapshot existed on entry. *)
Theorem update_blits_only_with_snapshot (w : World) :
  exists w' new,
    update w = Ok tt w'
    /\ calls (toolkit w') = calls (toolkit w) ++ new
    /\ _bg (self w') <> None
    /\ match _bg (self w) with
       | None =>
           new
           = CopyFromBbox (canvas (self w)) (bbox (figure (canvas (self w))))
               :: map (DrawArtist (figure (canvas (self w)))) (_artists (self w))
               ++ [FlushEvents (canvas (self w))]
           /\ filter is_blit new = []
           /\ _bg (self w') = Some (captures (calls (toolkit w)))
       | Some r =>
           filter is_blit new
           = [Blit (canvas (self w)) (bbox (figure (canvas (self w))))]
           /\ _bg (self w') = Some r
       end.
Proof.
  exists (logged (update_calls (self w))
            (match _bg (self w) with
             | None => with_bg (Some (captures (calls (toolkit w)))) w
             | Some _ => w
             end)), (update_calls (self w)).
  split; [apply update_eq|].
  assert (Hd : forall fig (arts : list ref),
             filter is_blit (map (DrawArtist fig) arts) = []).
  { intros fig arts. induction arts as [|a arts IH]; [done|]. exact IH. }
  unfold update_calls. destruct (_bg (self w)) as [r|] eqn:Hbg; simpl.
  - split; [done|]. split; [by rewrite Hbg|]. split; [|done].
    rewrite filter_cons_False by (simpl; tauto).
    by rewrite !filter_app, Hd.
  - split; [done|]. split; [done|]. split; [done|]. split; [|done].
    rewrite filter_cons_False by (simpl; tauto).
    by rewrite filter_app, Hd.
Qed.

(** *** Registration *)

Lemma figure_ne_false (a b : option Figure) : figure_ne a b = false <-> a = b.
Proof.
  destruct a as [x|], b as [y|]; simpl; try (split; [discriminate|congruence]).
  - rewrite negb_false_iff, Nat.eqb_eq. split; congruence.
  - done.
Qed.

Lemma add_artist_eq art w :
  add_artist art w
  = if figure_ne (figure_of (toolkit w) art) (Some (figure (canvas (self w))))
    then Raise RuntimeError w
    else Ok tt (registered w art).
Proof.
  unfold add_artist, bind, attr, get_figure.
  by destruct (figure_ne _ _).
Qed.

Lemma figure_of_registered w a b :
  figure_of (toolkit (registered w a)) b = figure_of (toolkit w) b.
Proof.
  unfold figure_of. simpl. rewrite lookup_alter.
  case_decide; [subst|done]. by destruct (artists (toolkit w) !! b).
Qed.

Lemma belongs_registered w a b : belongs (registered w a) b <-> belongs w b.
Proof. unfold belongs. by rewrite figure_of_registered. Qed.

Lemma registered_all arts w :
  let w' := foldl registered w arts in
  canvas (self w') = canvas (self w)
  /\ _bg (self w') = _bg (self w)
  /\ cid (self w') = cid (self w)
  /\ _artists (self w') = _artists (self w) ++ arts
  /\ calls (toolkit w')
     = calls (toolkit w) ++ map (fun a => SetAnimated a true) arts.
Proof.
  revert w. induction arts as [|a arts IH]; intros w; simpl.
  - by rewrite !app_nil_r.
  - destruct (IH (registered w a)) as (-> & -> & -> & -> & ->). simpl.
    by rewrite <- !app_assoc.
Qed.

Lemma Forall_belongs_registered w a arts :
  Forall (belongs (registered w a)) arts <-> Forall (belongs w) arts.
Proof. apply Forall_iff. intros b. apply belongs_registered. Qed.

(** Registering a list of artists: either all of them belong and all are
    registered, or one does not and the loop raises without a capture or
    a connection having been made. *)
Lemma add_artists arts w :
  (Forall (belongs w) arts
   /\ for_each arts add_artist w = Ok tt (foldl registered w arts))
  \/ (~ Forall (belongs w) arts
      /\ exists w',
          for_each arts add_artist w = Raise RuntimeError w'
          /\ canvas (self w') = canvas (self w)
          /\ _bg (self w') = _bg (self w)
          /\ cid (self w') = cid (self w)
          /\ filter is_capture (calls (toolkit w'))
             = filter is_capture (calls (toolkit w))
          /\ filter is_connect (calls (toolkit w'))
             = filter is_connect (calls (toolkit w))).
Proof.
  revert w. induction arts as [|a arts IH]; intros w; simpl.
  - left. by split.
  - unfold bind. rewrite add_artist_eq.
    destruct (figure_ne _ _) eqn:Hne.
    + right. split.
      * intros Hall. apply Forall_cons_1 in Hall as [Ha _].
        apply figure_ne_false in Ha. congruence.
      * by exists w.
    + apply figure_ne_false in Hne.
      destruct (IH (registered w a)) as [[Hall ->]|[Hnot (w' & -> & Hw')]].
      * left. split; [|done]. apply Forall_cons. split; [done|].
        by apply Forall_belongs_registered in Hall.
      * right. split.
        { intros Hall. apply Forall_cons_1 in Hall as [_ Hall].
          by apply Hnot, Forall_belongs_registered. }
        exists w'. split; [done|].
        destruct Hw' as (-> & -> & -> & -> & ->). simpl.
        rewrite !filter_app. simpl. by rewrite !app_nil_r.
Qed.

(** C5: [add_artist] on an artist that is not in the figure of the managed
    canvas raises [RuntimeError] and leaves the state as it found it: no
    region captured, the list of animated artists and the artist itself
    untouched.  On an artist of that figure it sets the artist animated
    and appends it to the list.  A constructor handed an artist of another
    figure raises before it connects [on_draw] to the canvas and without
    any capture: the manager still has no snapshot. *)
Theorem add_artist_rejects_foreign_figure (art : ref) (w : World)
    (cv : Canvas) (arts : list ref) (tk : Toolkit) :
  ((~ belongs w art /\ add_artist art w = Raise RuntimeError w)
   \/ (belongs w art
       /\ exists w',
           add_artist art w = Ok tt w'
           /\ _artists (self w') = _artists (self w) ++ [art]
           /\ artists (toolkit w') !! art
              = mark_animated true <$> artists (toolkit w) !! art
           /\ (forall b, b <> art ->
                 artists (toolkit w') !! b = artists (toolkit w) !! b)
           /\ calls (toolkit w') = calls (toolkit w) ++ [SetAnimated art true]
           /\ canvas (self w') = canvas (self w)
           /\ _bg (self w') = _bg (self w)))
  /\ ((Forall (fun a => figure_of tk a = Some (figure cv)) arts
       /\ exists w', __init__ cv arts tk = Ok tt w'
                     /\ _artists (self w') = arts
                     /\ _bg (self w') = None)
      \/ (~ Forall (fun a => figure_of tk a = Some (figure cv)) arts
          /\ exists w', __init__ cv arts tk = Raise RuntimeError w'
                        /\ _bg (self w') = None
                        /\ cid (self w') = None
                        /\ captures (calls (toolkit w')) = captures (calls tk)
                        /\ connections (calls (toolkit w'))
                           = connections (calls tk))).
Proof.
  split.
  - rewrite add_artist_eq. unfold belongs.
    destruct (figure_ne _ _) eqn:Hne.
    + left. split; [|done]. intros Hb. apply figure_ne_false in Hb. congruence.
    + right. apply figure_ne_false in Hne. split; [done|].
      eexists. split; [done|]. simpl. repeat split.
      * rewrite lookup_alter. by case_decide.
      * intros b Hb. rewrite lookup_alter. case_decide; [congruence|done].
  - unfold __init__, bind.
    set (w0 := {| self := {| canvas := cv; _bg := None; _artists := [];
                             cid := None |}; toolkit := tk |}).
    destruct (add_artists arts w0) as [[Hall ->]|[Hnot (w' & -> & Hw')]].
    + left. split; [exact Hall|]. eexists. split; [done|].
      destruct (registered_all arts w0) as (_ & Hbg & _ & Harts & _).
      simpl. by rewrite Hbg, Harts.
    + right. split; [exact Hnot|]. exists w'. split; [done|].
      destruct Hw' as (_ & -> & -> & Hcap & Hcon).
      unfold captures, connections. by rewrite Hcap, Hcon.
Qed.

(** *** Runs of draw events and updates *)

Lemma step_managed op w :
  managed (canvas (self w)) op ->
  exists w',
    step op w = Ok tt w'
    /\ canvas (self w') = canvas (self w)
    /\ _artists (self w') = _artists (self w)
    /\ has_snapshot (self w') = true
    /\ captures (calls (toolkit w'))
       = captures (calls (toolkit w)) + full_redraws (has_snapshot (self w)) [op].
Proof.
  intros Hop. destruct op as [ev|]; simpl.
  - eexists. split; [by apply on_draw_eq|]. simpl. repeat split.
    rewrite captures_app, captures_on_draw_calls. lia.
  - eexists. split; [apply update_eq|].
    assert (Hcap := captures_update_calls (self w)).
    unfold has_snapshot in *.
    destruct (_bg (self w)) as [r|] eqn:Hbg; simpl;
      rewrite ?Hbg, captures_app, Hcap; repeat split; lia.
Qed.

Lemma run_managed ops w :
  Forall (managed (canvas (self w))) ops ->
  exists w',
    run ops w = Ok tt w'
    /\ canvas (self w') = canvas (self w)
    /\ _artists (self w') = _artists (self w)
    /\ captures (calls (toolkit w'))
       = captures (calls (toolkit w)) + full_redraws (has_snapshot (self w)) ops.
Proof.
  revert w. induction ops as [|op ops IH]; intros w Hall.
  - exists w. simpl. repeat split. lia.
  - apply Forall_cons_1 in Hall as [Hop Hall].
    destruct (step_managed op w Hop) as (w1 & Hstep & Hcv & Harts & Hbg & Hcap).
    rewrite <- Hcv in Hall.
    destruct (IH w1 Hall) as (w' & Hrun & Hcv' & Harts' & Hcap').
    exists w'. unfold run in *. simpl. unfold bind. rewrite Hstep.
    split; [done|]. split; [congruence|]. split; [congruence|].
    rewrite Hcap', Hcap, Hbg. simpl.
    destruct op; simpl; lia.
Qed.

Lemma updates_reuse n w r :
  _bg (self w) = Some r ->
  run (replicate n Update) w = Ok tt (logged (blit_frames (self w) r n) w).
Proof.
  revert w. induction n as [|n IH]; intros w Hbg.
  - by rewrite logged_nil.
  - unfold run in *. simpl. unfold bind. rewrite update_eq, Hbg.
    rewrite IH by done. rewrite logged_logged. simpl.
    unfold blit_frames, update_calls. rewrite Hbg. simpl.
    by rewrite <- !app_assoc.
Qed.

(** C3: every full redraw captures the background exactly once, and the
    captured region is what every later [update] restores, unchanged,
    until the next full redraw.  A full redraw is a draw event, or the
    redraw [update] forces when it is called before any snapshot exists.
    For a run of draw events (from the managed canvas) and updates, the
    captures added to the log are as many as its full redraws; a draw
    event followed by [n] updates makes one capture, and each of the
    updates restores the region of that capture; two draw events in a row
    make two captures. *)
Theorem snapshot_once_per_full_redraw (ops : list Op) (ev ev' : DrawEvent)
    (n : nat) (w : World) :
  Forall (managed (canvas (self w))) ops ->
  canvas_id (event_canvas ev) = canvas_id (canvas (self w)) ->
  canvas_id (event_canvas ev') = canvas_id (canvas (self w)) ->
  (exists w1,
      run ops w = Ok tt w1
      /\ captures (calls (toolkit w1))
         = captures (calls (toolkit w)) + full_redraws (has_snapshot (self w)) ops)
  /\ (exists w2,
        run (Draw ev :: replicate n Update) w = Ok tt w2
        /\ captures (calls (toolkit w2)) = S (captures (calls (toolkit w)))
        /\ _bg (self w2) = Some (captures (calls (toolkit w)))
        /\ calls (toolkit w2)
           = calls (toolkit w)
               ++ on_draw_calls (self w)
               ++ blit_frames (self w) (captures (calls (toolkit w))) n)
  /\ (exists w3,
        run [Draw ev; Draw ev'] w = Ok tt w3
        /\ captures (calls (toolkit w3)) = 2 + captures (calls (toolkit w))
        /\ _bg (self w3) = Some (S (captures (calls (toolkit w))))
        /\ calls (toolkit w3)
           = calls (toolkit w) ++ on_draw_calls (self w) ++ on_draw_calls (self w)).
Proof.
  intros Hops Hev Hev'. split; [|split].
  - destruct (run_managed ops w Hops) as (w1 & Hrun & _ & _ & Hcap). by exists w1.
  - unfold run. simpl. unfold bind. rewrite on_draw_eq by done.
    fold (run (replicate n Update)).
    set (r := captures (calls (toolkit w))).
    rewrite (updates_reuse n _ r) by done.
    eexists. split; [done|]. simpl. split; [|split; [done|]].
    + change (blit_frames _ r n) with (blit_frames (self w) r n).
      change (on_draw_calls _) with (on_draw_calls (self w)).
      rewrite !captures_app, captures_on_draw_calls, captures_blit_frames.
      fold r. lia.
    + by rewrite <- app_assoc.
  - unfold run. simpl. unfold bind. rewrite on_draw_eq by done.
    rewrite on_draw_eq by done. unfold ret.
    eexists. split; [done|]. simpl. split; [|split].
    + rewrite !captures_app.
      change (on_draw_calls _) with (on_draw_calls (self w)).
      rewrite !captures_on_draw_calls. lia.
    + rewrite captures_app, captures_on_draw_calls. f_equal. lia.
    + by rewrite <- app_assoc.
Qed.

(** ** The renderer loop *)

Lemma flushes_app l1 l2 : flushes (l1 ++ l2) = flushes l1 + flushes l2.
Proof. unfold flushes. by rewrite filter_app, length_app. Qed.

Lemma closes_app l1 l2 : closes (l1 ++ l2) = closes l1 + closes l2.
Proof. unfold closes. by rewrite filter_app, length_app. Qed.

Lemma manager_calls_silent l :
  forallb manager_call l = true ->
  ydatas l = [] /\ texts l = [] /\ closes l = 0.
Proof.
  induction l as [|c l IH]; [done|]. simpl. intros [Hc Hl]%andb_prop.
  destruct (IH Hl) as (Hy & Ht & Hc'). unfold ydatas, texts in *.
  destruct c; try discriminate; simpl; by rewrite ?Hy, ?Ht.
Qed.

Lemma manager_call_draws fig (arts : list ref) :
  forallb manager_call (map (DrawArtist fig) arts) = true.
Proof. by induction arts. Qed.

Lemma flushes_draws fig (arts : list ref) : flushes (map (DrawArtist fig) arts) = 0.
Proof. induction arts as [|a arts IH]; [done|]. exact IH. Qed.

Lemma manager_call_on_draw_calls s : forallb manager_call (on_draw_calls s) = true.
Proof. unfold on_draw_calls. simpl. apply manager_call_draws. Qed.

Lemma flushes_on_draw_calls s : flushes (on_draw_calls s) = 0.
Proof. unfold on_draw_calls. apply (flushes_draws _ _). Qed.

Lemma manager_call_update_calls s : forallb manager_call (update_calls s) = true.
Proof.
  unfold update_calls. rewrite forallb_app. simpl. rewrite andb_true_r.
  destruct (_bg s); [|apply manager_call_on_draw_calls].
  simpl. rewrite forallb_app, manager_call_draws. done.
Qed.

Lemma flushes_update_calls s : flushes (update_calls s) = 1.
Proof.
  unfold update_calls. rewrite flushes_app.
  destruct (_bg s).
  - change (flushes (RestoreRegion ?c ?r :: ?l)) with (flushes l).
    by rewrite flushes_app, flushes_draws.
  - by rewrite flushes_on_draw_calls.
Qed.

(** The toolkit dispatching draw events to the connected callback never
    makes it raise. *)
Lemma dispatch_draws_ok n w :
  exists w' new,
    dispatch_draws n w = Ok tt w'
    /\ canvas (self w') = canvas (self w)
    /\ _artists (self w') = _artists (self w)
    /\ calls (toolkit w') = calls (toolkit w) ++ new
    /\ forallb manager_call new = true
    /\ flushes new = 0.
Proof.
  revert w. induction n as [|n IH]; intros w; simpl.
  - exists w, []. by rewrite app_nil_r.
  - unfold bind, attr. rewrite on_draw_eq by done.
    match goal with |- context [dispatch_draws n ?w1] =>
      destruct (IH w1) as (w' & new & -> & Hcv & Harts & Hcalls & Hman & Hfl) end.
    exists w', (on_draw_calls (self w) ++ new).
    split; [done|]. simpl in Hcv, Harts, Hcalls. repeat split; try done.
    + by rewrite Hcalls, <- app_assoc.
    + by rewrite forallb_app, manager_call_on_draw_calls.
    + by rewrite flushes_app, flushes_on_draw_calls.
Qed.

Lemma update_ok w :
  exists w',
    update w = Ok tt w'
    /\ canvas (self w') = canvas (self w)
    /\ _artists (self w') = _artists (self w)
    /\ calls (toolkit w') = calls (toolkit w) ++ update_calls (self w).
Proof.
  eexists. split; [apply update_eq|]. by destruct (_bg (self w)).
Qed.

(** One turn of the loop on a data frame. *)
Lemma frame_turn (k : nat) (a b : ref) (d : vector) (lab : string) w :
  exists w' new,
    (set_ydata a d >>> set_text b lab >>> update >>> dispatch_draws k) w
    = Ok tt w'
    /\ calls (toolkit w')
       = calls (toolkit w) ++ SetYdata a d :: SetText b lab :: new
    /\ forallb manager_call new = true
    /\ flushes new = 1.
Proof.
  set (w2 := alter_artist (put_text lab) b
               (logged [SetText b lab]
                  (alter_artist (put_ydata d) a (logged [SetYdata a d] w)))).
  destruct (update_ok w2) as (w3 & Hupd & _ & _ & Hcalls3).
  destruct (dispatch_draws_ok k w3) as (w' & new & Hdis & _ & _ & Hcalls & Hman & Hfl).
  exists w', (update_calls (self w2) ++ new). split; [|split; [|split]].
  - unfold bind, set_ydata, set_text. fold w2. by rewrite Hupd.
  - rewrite Hcalls, Hcalls3. subst w2. simpl. by rewrite <- !app_assoc.
  - by rewrite forallb_app, manager_call_update_calls.
  - by rewrite flushes_app, flushes_update_calls, Hfl.
Qed.

Lemma render_loop_frames draws frames q r :
  Forall is_frame frames ->
  exists r' new,
    render_loop draws (frames ++ q) r = render_loop draws q r'
    /\ frame_num r' = frame_num r + length frames
    /\ (frames = [] /\ r' = r \/ frames <> [] /\ unread r' = q)
    /\ calls (toolkit (world r')) = calls (toolkit (world r)) ++ new
    /\ ydatas new = frames
    /\ texts new = map frame_label (seq (S (frame_num r)) (length frames))
    /\ flushes new = length frames
    /\ closes new = 0.
Proof.
  intros Hfr. revert r. induction Hfr as [|d frames Hd Hfr IH]; intros r.
  - exists r, []. simpl. rewrite app_nil_r, Nat.add_0_r. repeat split. by left.
  - change ((d :: frames) ++ q) with (d :: (frames ++ q)). cbn [render_loop].
    unfold is_frame in Hd. apply Nat.eqb_neq in Hd. rewrite Hd.
    destruct (frame_turn (draws (frame_num r + 1)) (ln r) (fr_number r) d
                (frame_label (frame_num r + 1)) (world r))
      as (w' & new1 & -> & Hcalls1 & Hman & Hfl).
    destruct (manager_calls_silent new1 Hman) as (Hy & Ht & Hc).
    match goal with |- context [render_loop draws (frames ++ q) ?r1] =>
      destruct (IH r1) as (r' & new2 & -> & Hnum & Hun & Hcalls & Hy2 & Ht2 & Hfl2 & Hc2)
    end.
    simpl in Hnum, Hcalls, Ht2.
    exists r', (SetYdata (ln r) d :: SetText (fr_number r) (frame_label (frame_num r + 1))
                  :: new1 ++ new2).
    split; [done|]. split; [simpl; lia|]. split.
    { right. split; [done|]. destruct Hun as [[-> ->]|[_ Hun]]; [|done].
      done. }
    split; [by rewrite Hcalls, Hcalls1, <- app_assoc|].
    unfold ydatas, texts in *. simpl. rewrite !omap_app, Hy, Ht, Hy2, Ht2.
    simpl. rewrite Nat.add_1_r. repeat split.
    + change (flushes (?a :: ?b :: ?l)) with (flushes l).
      rewrite flushes_app. lia.
    + change (closes (?a :: ?b :: ?l)) with (closes l).
      rewrite closes_app. lia.
Qed.

(** Everything up to the loop: the constructor succeeds, the window is
    shown, and the loop starts with the counter at 0. *)
Lemma setup_ok draws q n :
  exists r0,
    animated_plot_process draws q n = render_loop draws q r0
    /\ frame_num r0 = 0
    /\ unread r0 = q
    /\ ydatas (calls (toolkit (world r0))) = []
    /\ texts (calls (toolkit (world r0))) = []
    /\ flushes (calls (toolkit (world r0))) = 0
    /\ closes (calls (toolkit (world r0))) = 0.
Proof.
  unfold animated_plot_process, __init__.
  match goal with |- context [(for_each _ add_artist >>> _) ?w] => set (w0 := w) end.
  unfold bind at 1.
  match goal with |- context [for_each ?l add_artist w0] =>
    destruct (add_artists l w0) as [[_ ->]|[Hnot _]];
      [|destruct Hnot; by repeat constructor]
  end.
  unfold bind at 1. unfold mpl_connect, set_cid, call. unfold bind at 1. unfold bind at 1.
  match goal with |- context [dispatch_draws (draws 0) ?w1] =>
    destruct (dispatch_draws_ok (draws 0) w1)
      as (w' & new & -> & _ & _ & Hcalls & Hman & Hfl)
  end.
  destruct (manager_calls_silent new Hman) as (Hy & Ht & Hc).
  eexists. split; [done|]. simpl. rewrite Hcalls. simpl.
  unfold ydatas, texts in *.
  change (flushes (?a :: ?b :: ?c :: ?d :: ?e :: ?f :: ?l)) with (flushes l).
  change (closes (?a :: ?b :: ?c :: ?d :: ?e :: ?f :: ?l)) with (closes l).
  by rewrite Hy, Ht.
Qed.

(** The counter counts the vectors taken from the queue, whatever they
    are. *)
Lemma render_loop_counts draws q r :
  unread r = q ->
  frame_num (snd (render_loop draws q r))
    + length (unread (snd (render_loop draws q r)))
  = frame_num r + length q.
Proof.
  revert r. induction q as [|d rest IH]; intros r Hun; [simpl; by rewrite Hun|].
  cbn [render_loop].
  destruct (length d =? 0).
  - unfold bind, call. simpl. lia.
  - destruct ((_ >>> _) (world r)) as [[] w|e w]; [|simpl; lia].
    rewrite IH by done. simpl. lia.
Qed.

(** A run on data frames followed by the sentinel. *)
Lemma renderer_run draws n frames rest :
  Forall is_frame frames ->
  exists r,
    animated_plot_process draws (frames ++ [] :: rest) n = (Exited, r)
    /\ frame_num r = S (length frames)
    /\ unread r = rest
    /\ ydatas (calls (toolkit (world r))) = frames
    /\ texts (calls (toolkit (world r)))
       = map frame_label (seq 1 (length frames))
    /\ flushes (calls (toolkit (world r))) = length frames
    /\ closes (calls (toolkit (world r))) = 1
    /\ last (calls (toolkit (world r))) = Some PltClose.
Proof.
  intros Hfr.
  destruct (setup_ok draws (frames ++ [] :: rest) n)
    as (r0 & -> & Hnum0 & _ & Hy0 & Ht0 & Hfl0 & Hc0).
  destruct (render_loop_frames draws frames ([] :: rest) r0 Hfr)
    as (r1 & new & -> & Hnum & _ & Hcalls & Hy & Ht & Hfl & Hc).
  cbn [render_loop]. simpl length. cbn [Nat.eqb].
  unfold bind, call. eexists. split; [done|]. simpl.
  rewrite Hcalls, last_snoc.
  unfold ydatas, texts in *. rewrite !omap_app, Hy0, Ht0, Hy, Ht.
  rewrite !flushes_app, !closes_app, Hfl0, Hc0, Hfl, Hc, Hnum, Hnum0.
  change (flushes [Print _]) with 0. change (flushes [PltClose]) with 0.
  change (closes [Print _]) with 0. change (closes [PltClose]) with 1.
  simpl. rewrite !app_nil_r. repeat split; lia.
Qed.

(** A run on data frames alone: the renderer waits for the next vector. *)
Lemma renderer_waits draws n frames :
  Forall is_frame frames ->
  exists r,
    animated_plot_process draws frames n = (Blocked, r)
    /\ frame_num r = length frames
    /\ texts (calls (toolkit (world r)))
       = map frame_label (seq 1 (length frames))
    /\ closes (calls (toolkit (world r))) = 0.
Proof.
  intros Hfr.
  destruct (setup_ok draws frames n)
    as (r0 & -> & Hnum0 & _ & Hy0 & Ht0 & Hfl0 & Hc0).
  destruct (render_loop_frames draws frames [] r0 Hfr)
    as (r1 & new & Hloop & Hnum & _ & Hcalls & Hy & Ht & Hfl & Hc).
  rewrite app_nil_r in Hloop. rewrite Hloop. cbn [render_loop].
  exists r1. split; [done|]. rewrite Hcalls.
  unfold texts in *. rewrite omap_app, Ht0, Ht, closes_app, Hc0, Hc, Hnum, Hnum0.
  done.
Qed.

Lemma renderer_counts_gets draws q n :
  frame_num (snd (animated_plot_process draws q n))
    + length (unread (snd (animated_plot_process draws q n)))
  = length q.
Proof.
  destruct (setup_ok draws q n) as (r0 & -> & Hnum0 & Hun & _).
  rewrite render_loop_counts by done. lia.
Qed.

(** C1 (as amended): the counter is incremented once for every vector
    taken from the queue, the sentinel included.  While the renderer
    waits after [k] data frames the counter is [k], the number of data
    frames received, and the label has been set to ["frame: 1"], ...,
    ["frame: k"], once per frame; when the sentinel comes after [k] data
    frames the renderer exits with the counter at [k + 1]. *)
Theorem frame_counter_counts_every_get (draws : nat -> nat) (n : nat)
    (frames rest : list vector) :
  Forall is_frame frames ->
  (forall q,
      frame_num (snd (animated_plot_process draws q n))
        + length (unread (snd (animated_plot_process draws q n)))
      = length q)
  /\ (exists r,
        animated_plot_process draws frames n = (Blocked, r)
        /\ frame_num r = length frames
        /\ texts (calls (toolkit (world r)))
           = map frame_label (seq 1 (length frames)))
  /\ (exists r,
        animated_plot_process draws (frames ++ [] :: rest) n = (Exited, r)
        /\ frame_num r = S (length frames)
        /\ texts (calls (toolkit (world r)))
           = map frame_label (seq 1 (length frames))).
Proof.
  intros Hfr. split; [|split].
  - intros q. apply renderer_counts_gets.
  - destruct (renderer_waits draws n frames Hfr) as (r & Hrun & Hnum & Ht & _).
    by exists r.
  - destruct (renderer_run draws n frames rest Hfr)
      as (r & Hrun & Hnum & _ & _ & Ht & _).
    by exists r.
Qed.

(** C2: [k] data frames followed by the sentinel make the renderer leave
    its loop: it has handed exactly those [k] frames, in order, to
    [set_ydata], called [update] once for each, closed the figure as its
    last call, and whatever follows the sentinel is still in the queue,
    unread. *)
Theorem sentinel_ends_renderer (draws : nat -> nat) (n : nat)
    (frames rest : list vector) :
  Forall is_frame frames ->
  exists r,
    animated_plot_process draws (frames ++ [] :: rest) n = (Exited, r)
    /\ unread r = rest
    /\ ydatas (calls (toolkit (world r))) = frames
    /\ flushes (calls (toolkit (world r))) = length frames
    /\ closes (calls (toolkit (world r))) = 1
    /\ last (calls (toolkit (world r))) = Some PltClose.
Proof.
  intros Hfr.
  destruct (renderer_run draws n frames rest Hfr)
    as (r & Hrun & _ & Hun & Hy & _ & Hfl & Hc & Hlast).
  by exists r.
Qed.

(** ** The producer *)

Lemma produced_eq (f : nat -> vector) (l : list nat) (acts : list Action) :
  foldl (fun acts j => acts ++ [Put (f j); PrintLatency]) acts l
  = acts ++ flat_map (fun j => [Put (f j); PrintLatency]) l.
Proof.
  revert acts. induction l as [|j l IH]; intros acts; simpl.
  - by rewrite app_nil_r.
  - rewrite IH. by rewrite <- app_assoc.
Qed.

Lemma puts_produced (f : nat -> vector) (l : list nat) :
  puts (flat_map (fun j => [Put (f j); PrintLatency]) l) = map f l.
Proof. induction l as [|j l IH]; [done|]. simpl. by rewrite <- IH. Qed.

Lemma puts_app (l1 l2 : list Action) : puts (l1 ++ l2) = puts l1 ++ puts l2.
Proof. apply omap_app. Qed.

Lemma random_length rnd j n : length (random rnd j n) = n.
Proof. unfold random. by rewrite length_map, length_seq. Qed.

(** C8: [main] puts 100 vectors of 400 random numbers on the queue, one
    per iteration, then the empty vector, then joins the renderer and
    prints its exit code.  The renderer, fed these 101 vectors, exits
    normally (exit code 0) after rendering the 100 frames in order. *)
Theorem main_sends_frames_then_sentinel (rnd : nat -> nat -> sample)
    (draws : nat -> nat) :
  let frames := map (fun j => random rnd j 400) (seq 0 100) in
  actions (main rnd draws)
  = Start
      :: flat_map (fun j => [Put (random rnd j 400); PrintLatency]) (seq 0 100)
      ++ [Put []; Join; PrintExitcode 0; PrintLine "finished animate process"]
  /\ puts (actions (main rnd draws)) = frames ++ [[]]
  /\ length frames = 100
  /\ Forall (fun v => length v = 400) frames
  /\ fst (renderer (main rnd draws)) = Exited
  /\ unread (snd (renderer (main rnd draws))) = []
  /\ ydatas (calls (toolkit (world (snd (renderer (main rnd draws)))))) = frames.
Proof.
  intros frames.
  assert (Hlen : Forall (fun v => length v = 400) frames).
  { apply Forall_map, Forall_forall. intros j _. apply random_length. }
  assert (Hfr : Forall is_frame frames).
  { eapply Forall_impl; [exact Hlen|]. intros v Hv. unfold is_frame. by rewrite Hv. }
  destruct (renderer_run draws 400 frames [] Hfr)
    as (r & Hrun & _ & Hun & Hy & _).
  assert (Hputs : puts ((foldl (fun acts j => acts ++ [Put (random rnd j 400); PrintLatency])
                           [Start] (seq 0 100)) ++ [Put []]) = frames ++ [[]]).
  { by rewrite produced_eq, !puts_app, puts_produced. }
  unfold main. cbv zeta. rewrite Hputs, Hrun. cbn [fst snd exitcode actions renderer].
  rewrite produced_eq.
  split; [by rewrite <- !app_assoc|].
  split.
  { rewrite <- produced_eq, puts_app, Hputs.
    change (puts [Join; _; _]) with (@nil vector). by rewrite app_nil_r. }
  split; [by unfold frames; rewrite length_map, length_seq|].
  done.
Qed.

(** * Further properties *)

(** ** Construction *)

Lemma connections_app l1 l2 :
  connections (l1 ++ l2) = connections l1 + connections l2.
Proof. unfold connections. by rewrite filter_app, length_app. Qed.

Lemma connections_set_animated (arts : list ref) :
  connections (map (fun a => SetAnimated a true) arts) = 0.
Proof. induction arts as [|a arts IH]; [done|]. exact IH. Qed.

Lemma captures_set_animated (arts : list ref) :
  captures (map (fun a => SetAnimated a true) arts) = 0.
Proof. induction arts as [|a arts IH]; [done|]. exact IH. Qed.

Lemma mark_animated_twice b a : mark_animated b (mark_animated b a) = mark_animated b a.
Proof. done. Qed.

(** The store after a list of artists has been registered. *)
Lemma registered_all_store arts w a :
  artists (toolkit (foldl registered w arts)) !! a
  = if decide (a ∈ arts) then mark_animated true <$> artists (toolkit w) !! a
    else artists (toolkit w) !! a.
Proof.
  revert w. induction arts as [|b arts IH]; intros w; simpl.
  - done.
  - rewrite IH. simpl. rewrite lookup_alter.
    destruct (decide (a ∈ b :: arts)) as [Hin'|Hin'];
      destruct (decide (a ∈ arts)) as [Hin|Hin];
      destruct (decide (b = a)) as [->|Hne]; try done.
    + by destruct (artists (toolkit w) !! a).
    + apply elem_of_cons in Hin' as [?|?]; congruence.
    + destruct Hin'. apply elem_of_cons. by right.
    + destruct Hin'. apply elem_of_cons. by right.
    + destruct Hin'. apply elem_of_cons. by left.
Qed.

Lemma figure_of_registered_all arts w a :
  figure_of (toolkit (foldl registered w arts)) a = figure_of (toolkit w) a.
Proof.
  revert w. induction arts as [|b arts IH]; intros w; [done|].
  simpl. by rewrite IH, figure_of_registered.
Qed.

Lemma for_each_app {A} (l1 l2 : list A) (body : A -> M unit) w :
  for_each (l1 ++ l2) body w = (for_each l1 body >>> for_each l2 body) w.
Proof.
  revert w. induction l1 as [|x l1 IH]; intros w; [done|].
  simpl. unfold bind in *. destruct (body x w) as [[] w1|e w1]; [|done].
  apply IH.
Qed.

(** X1: given artists that are all in the figure of the canvas, the
    constructor returns a manager of that canvas without a snapshot, that
    lists the artists in the order given and holds the id of the one
    connection it made; it has set each of them animated, in order, and
    connected to ["draw_event"] last, and has touched no other artist. *)
Theorem init_registers_then_connects (cv : Canvas) (arts : list ref)
    (tk : Toolkit) :
  Forall (fun a => figure_of tk a = Some (figure cv)) arts ->
  exists w',
    __init__ cv arts tk = Ok tt w'
    /\ canvas (self w') = cv
    /\ _bg (self w') = None
    /\ _artists (self w') = arts
    /\ cid (self w') = Some (connections (calls tk))
    /\ calls (toolkit w')
       = calls tk ++ map (fun a => SetAnimated a true) arts
           ++ [MplConnect cv "draw_event"]
    /\ (forall a, a ∈ arts -> animated <$> artists (toolkit w') !! a = Some true)
    /\ (forall a, a ∉ arts -> artists (toolkit w') !! a = artists tk !! a).
Proof.
  intros Hall. unfold __init__, bind.
  set (w0 := {| self := {| canvas := cv; _bg := None; _artists := [];
                           cid := None |}; toolkit := tk |}).
  destruct (add_artists arts w0) as [[_ ->]|[Hnot _]]; [|by destruct Hnot].
  destruct (registered_all arts w0) as (Hcv & Hbg & Hcid & Harts & Hcalls).
  eexists. split; [done|]. simpl.
  rewrite Hcv, Hbg, Harts, Hcalls. simpl.
  rewrite connections_app, connections_set_animated, Nat.add_0_r, <- app_assoc.
  repeat split.
  - intros a Ha. rewrite registered_all_store, decide_True by done. simpl.
    rewrite Forall_forall in Hall. specialize (Hall a Ha).
    unfold figure_of in Hall. by destruct (artists tk !! a).
  - intros a Ha. by rewrite registered_all_store, decide_False.
Qed.

(** X2: the constructor is not all-or-nothing: when an artist of the list
    is not in the figure, it raises at that artist, after the artists
    before it have been set animated and listed; the artists after it are
    untouched, no connection is made and [cid] is not set. *)
Theorem init_stops_at_first_foreign_artist (cv : Canvas)
    (pre : list ref) (bad : ref) (post : list ref) (tk : Toolkit) :
  Forall (fun a => figure_of tk a = Some (figure cv)) pre ->
  figure_of tk bad <> Some (figure cv) ->
  exists w',
    __init__ cv (pre ++ bad :: post) tk = Raise RuntimeError w'
    /\ _artists (self w') = pre
    /\ cid (self w') = None
    /\ calls (toolkit w') = calls tk ++ map (fun a => SetAnimated a true) pre
    /\ (forall a, a ∈ pre -> animated <$> artists (toolkit w') !! a = Some true)
    /\ (forall a, a ∉ pre -> artists (toolkit w') !! a = artists tk !! a).
Proof.
  intros Hpre Hbad. unfold __init__.
  set (w0 := {| self := {| canvas := cv; _bg := None; _artists := [];
                           cid := None |}; toolkit := tk |}).
  unfold bind at 1. rewrite for_each_app. unfold bind at 1.
  destruct (add_artists pre w0) as [[_ ->]|[Hnot _]]; [|by destruct Hnot].
  destruct (registered_all pre w0) as (Hcv & Hbg & Hcid & Harts & Hcalls).
  simpl. unfold bind at 1. rewrite add_artist_eq.
  rewrite figure_of_registered_all, Hcv. simpl.
  destruct (figure_ne (figure_of tk bad) (Some (figure cv))) eqn:Hne;
    [|by apply figure_ne_false in Hne].
  eexists. split; [done|]. rewrite Harts, Hcid, Hcalls. simpl.
  repeat split.
  - intros a Ha. rewrite registered_all_store, decide_True by done. simpl.
    rewrite Forall_forall in Hpre. specialize (Hpre a Ha).
    unfold figure_of in Hpre. by destruct (artists tk !! a).
  - intros a Ha. by rewrite registered_all_store, decide_False.
Qed.

(** ** Sequences of method calls *)

Lemma session_call_manager l :
  forallb manager_call l = true -> forallb session_call l = true.
Proof.
  induction l as [|c l IH]; [done|]. simpl. intros [Hc Hl]%andb_prop.
  rewrite IH by done. by destruct c.
Qed.

Lemma evolves_refl w : evolves w w.
Proof.
  repeat split; try done.
  - exists []. by rewrite app_nil_r.
  - exists []. by rewrite app_nil_r.
  - intros a. by left.
Qed.

Lemma evolves_trans w1 w2 w3 : evolves w1 w2 -> evolves w2 w3 -> evolves w1 w3.
Proof.
  intros (Hcv & Hcid & [m1 Hm1] & (n1 & Hn1 & Hq1) & Hf1 & Hs1)
         (Hcv' & Hcid' & [m2 Hm2] & (n2 & Hn2 & Hq2) & Hf2 & Hs2).
  split; [congruence|]. split; [congruence|]. split; [|split; [|split]].
  - exists (m1 ++ m2). by rewrite Hm2, Hm1, app_assoc.
  - exists (n1 ++ n2). split; [by rewrite Hn2, Hn1, app_assoc|].
    by rewrite forallb_app, Hq1, Hq2.
  - intros a. by rewrite Hf2, Hf1.
  - intros a. destruct (Hs2 a) as [->|[Hin ->]], (Hs1 a) as [Heq|[Hin' Heq]];
      rewrite Heq.
    + by left.
    + right. split; [|done]. rewrite Hm2. apply elem_of_app. by left.
    + by right.
    + right. split; [done|]. by destruct (artists (toolkit w1) !! a).
Qed.

Lemma evolves_redraw w l b :
  forallb manager_call l = true -> evolves w (logged l (with_bg b w)).
Proof.
  intros Hl. repeat split; try done; simpl.
  - exists []. by rewrite app_nil_r.
  - exists l. split; [done|]. by apply session_call_manager.
  - intros a. by left.
Qed.

Lemma evolves_logged w l :
  forallb manager_call l = true -> evolves w (logged l w).
Proof.
  intros Hl. repeat split; try done; simpl.
  - exists []. by rewrite app_nil_r.
  - exists l. split; [done|]. by apply session_call_manager.
  - intros a. by left.
Qed.

Lemma evolves_registered w art : evolves w (registered w art).
Proof.
  repeat split; try done; simpl.
  - by exists [art].
  - by exists [SetAnimated art true].
  - intros a. apply figure_of_registered.
  - intros a. rewrite lookup_alter. case_decide; [subst|by left].
    right. split; [|done]. apply elem_of_app. right. apply elem_of_cons. by left.
Qed.

Lemma on_draw_rejects ev w :
  canvas_id (event_canvas ev) <> canvas_id (canvas (self w)) ->
  on_draw (Some ev) w = Raise RuntimeError w.
Proof.
  intros Hev. apply canvas_ne_true in Hev.
  unfold on_draw, bind, attr. by rewrite Hev.
Qed.

Lemma snapshot_latest_on_draw w :
  snapshot_latest (logged (on_draw_calls (self w))
                     (with_bg (Some (captures (calls (toolkit w)))) w)).
Proof.
  intros r. simpl. intros [= <-].
  rewrite captures_app, captures_on_draw_calls. lia.
Qed.

(** One method call: it passes its test and returns, or fails it and
    raises in the state it was called in. *)
Lemma invoke_cases m w :
  (accepted w m
   /\ exists w',
       invoke m w = Ok tt w'
       /\ evolves w w'
       /\ _artists (self w') = _artists (self w) ++ added [m]
       /\ (snapshot_latest w -> snapshot_latest w'))
  \/ (~ accepted w m /\ invoke m w = Raise RuntimeError w).
Proof.
  destruct m as [art|[ev|]|]; simpl.
  - rewrite add_artist_eq. unfold belongs.
    destruct (figure_ne _ _) eqn:Hne.
    + right. split; [|done]. intros Hb. apply figure_ne_false in Hb. congruence.
    + left. apply figure_ne_false in Hne. split; [done|].
      eexists. split; [done|]. split; [apply evolves_registered|].
      split; [done|]. intros Hl r. simpl. intros Hr.
      rewrite captures_app. rewrite (Hl r Hr).
      change (captures [SetAnimated art true]) with 0. lia.
  - destruct (decide (canvas_id (event_canvas ev) = canvas_id (canvas (self w))))
      as [Hev|Hev].
    + left. split; [done|]. rewrite on_draw_eq by done.
      eexists. split; [done|].
      split; [apply evolves_redraw, manager_call_on_draw_calls|].
      split; [simpl; by rewrite app_nil_r|]. intros _. apply snapshot_latest_on_draw.
    + right. split; [done|]. by apply on_draw_rejects.
  - left. split; [done|]. rewrite on_draw_eq by done.
    eexists. split; [done|].
    split; [apply evolves_redraw, manager_call_on_draw_calls|].
    split; [simpl; by rewrite app_nil_r|]. intros _. apply snapshot_latest_on_draw.
  - left. split; [done|]. rewrite update_eq.
    eexists. split; [done|].
    assert (Hman := manager_call_update_calls (self w)).
    assert (Hcap := captures_update_calls (self w)).
    unfold has_snapshot in Hcap.
    destruct (_bg (self w)) as [r|] eqn:Hbg.
    + split; [by apply evolves_logged|]. split; [simpl; by rewrite app_nil_r|].
      intros Hl r' Hr'. simpl in *. rewrite captures_app, Hcap.
      rewrite Hbg in Hr'. rewrite (Hl r') by (by rewrite Hbg). lia.
    + split; [by apply evolves_redraw|]. split; [simpl; by rewrite app_nil_r|].
      intros _ r'. simpl. intros [= <-]. rewrite captures_app, Hcap. lia.
Qed.

Lemma accepted_evolves w w' m : evolves w w' -> accepted w' m <-> accepted w m.
Proof.
  intros (Hcv & _ & _ & _ & Hfig & _). destruct m as [art|ev|]; simpl.
  - unfold belongs. by rewrite Hfig, Hcv.
  - by rewrite Hcv.
  - done.
Qed.

(** A sequence of method calls: all of them are run, or the sequence
    stops at the first call that fails its test, in the state the calls
    before it have left. *)
Lemma session_cases ms w :
  (Forall (accepted w) ms
   /\ exists w',
       session ms w = Ok tt w'
       /\ evolves w w'
       /\ _artists (self w') = _artists (self w) ++ added ms
       /\ (snapshot_latest w -> snapshot_latest w'))
  \/ (exists pre m post w1,
        ms = pre ++ m :: post
        /\ Forall (accepted w) pre
        /\ ~ accepted w m
        /\ session pre w = Ok tt w1
        /\ session ms w = Raise RuntimeError w1
        /\ evolves w w1
        /\ _artists (self w1) = _artists (self w) ++ added pre
        /\ (snapshot_latest w -> snapshot_latest w1)).
Proof.
  revert w. induction ms as [|m ms IH]; intros w.
  - left. split; [done|]. exists w. split; [done|].
    split; [apply evolves_refl|]. split; [by rewrite app_nil_r|done].
  - destruct (invoke_cases m w) as [[Hacc (w1 & Hinv & Hev & Harts & Hl)]|[Hrej Hinv]].
    + destruct (IH w1) as [[Hall (w' & Hses & Hev' & Harts' & Hl')]
                          |(pre & m' & post & w2 & -> & Hpre & Hrej & Hses & Hses'
                            & Hev' & Harts' & Hl')].
      * left. split.
        { apply Forall_cons. split; [done|].
          eapply Forall_impl; [exact Hall|]. intros x Hx.
          by apply (accepted_evolves w w1 x Hev). }
        exists w'. unfold session in *. simpl. unfold bind. rewrite Hinv.
        split; [done|]. split; [by eapply evolves_trans|].
        split; [|tauto]. rewrite Harts', Harts, <- app_assoc.
        by destruct m.
      * right. exists (m :: pre), m', post, w2. split; [done|].
        split.
        { apply Forall_cons. split; [done|].
          eapply Forall_impl; [exact Hpre|]. intros x Hx.
          by apply (accepted_evolves w w1 x Hev). }
        split; [by rewrite <- (accepted_evolves w w1)|].
        unfold session in *. simpl. unfold bind. rewrite Hinv.
        split; [done|]. split; [done|]. split; [by eapply evolves_trans|].
        split; [|tauto]. rewrite Harts', Harts, <- app_assoc.
        by destruct m.
    + right. exists [], m, ms, w. split; [done|]. split; [done|]. split; [done|].
      split; [done|]. unfold session. simpl. unfold bind. rewrite Hinv.
      split; [done|]. split; [apply evolves_refl|]. split; [by rewrite app_nil_r|done].
Qed.

(** X5: a sequence of method calls raises exactly when one of them is
    handed an artist of another figure or an event of another canvas.  It
    then stops at the first such call: the calls before it have run, the
    calls after it have not, and the state is the one the calls before it
    left.  Otherwise every call runs and the artists added are listed in
    the order of the calls. *)
Theorem session_raises_at_first_rejected (ms : list Method) (w : World) :
  (Forall (accepted w) ms
   /\ exists w',
       session ms w = Ok tt w'
       /\ _artists (self w') = _artists (self w) ++ added ms)
  \/ (exists pre m post w1,
        ms = pre ++ m :: post
        /\ Forall (accepted w) pre
        /\ ~ accepted w m
        /\ session pre w = Ok tt w1
        /\ session ms w = Raise RuntimeError w1
        /\ _artists (self w1) = _artists (self w) ++ added pre).
Proof.
  destruct (session_cases ms w)
    as [[Hall (w' & Hses & _ & Harts & _)]
       |(pre & m & post & w1 & Hms & Hpre & Hrej & Hses & Hses' & _ & Harts & _)].
  - left. split; [done|]. by exists w'.
  - right. by exists pre, m, post, w1.
Qed.


(** X7: what the methods of a manager never do.  Over any sequence of
    method calls, returned or raised, the canvas and the connection id of
    the manager stay; the list of animated artists and the log only grow
    at the end; the calls issued are redraw calls and [set_animated(True)]
    only, so nothing is connected, closed or printed and no artist gets
    new data or text; no artist appears in or disappears from the store or
    changes figure or shape, and the only attribute written is [animated],
    set on artists that are in the list afterwards. *)
Theorem methods_leave_artists_alone (ms : list Method) (w : World) :
  let w' := final_world (session ms w) in
  canvas (self w') = canvas (self w)
  /\ cid (self w') = cid (self w)
  /\ (exists more, _artists (self w') = _artists (self w) ++ more)
  /\ (exists new,
        calls (toolkit w') = calls (toolkit w) ++ new
        /\ forallb session_call new = true
        /\ connections new = 0 /\ closes new = 0
        /\ ydatas new = [] /\ texts new = [])
  /\ (forall a,
        art_figure <$> artists (toolkit w') !! a
        = art_figure <$> artists (toolkit w) !! a
        /\ shape <$> artists (toolkit w') !! a = shape <$> artists (toolkit w) !! a
        /\ (artists (toolkit w') !! a = artists (toolkit w) !! a
            \/ (a ∈ _artists (self w')
                /\ animated <$> artists (toolkit w') !! a = Some true))).
Proof.
  intros w'.
  assert (Hev : evolves w w').
  { subst w'.
    destruct (session_cases ms w)
      as [[_ (w1 & -> & Hev & _)]
         |(pre & m & post & w1 & _ & _ & _ & _ & -> & Hev & _)]; done. }
  destruct Hev as (Hcv & Hcid & Hmore & (new & Hnew & Hq) & _ & Hs).
  split; [done|]. split; [done|]. split; [done|]. split.
  - exists new. split; [done|]. split; [done|].
    clear Hnew. induction new as [|c new IH]; [done|].
    simpl in Hq. apply andb_prop in Hq as [Hc Hq].
    destruct (IH Hq) as (Hco & Hcl & Hy & Ht).
    unfold connections, closes, ydatas, texts in *.
    destruct c as [| | | | | |a []| | | | | | |]; try discriminate; simpl;
      by rewrite ?Hy, ?Ht.
  - clearbody w'. intros a.
    destruct (Hs a) as [Heq|[Hin Heq]]; rewrite Heq; [by repeat split; left|].
    destruct (artists (toolkit w) !! a) as [x|]; simpl.
    + repeat split. right. by split.
    + repeat split. by left.
Qed.

(** ** Registration and redraws together *)

Lemma blits_app l1 l2 : blits (l1 ++ l2) = blits l1 + blits l2.
Proof. unfold blits. by rewrite filter_app, length_app. Qed.

Lemma blits_cons c l : blits (c :: l) = (if is_blit c then 1 else 0) + blits l.
Proof. by destruct c. Qed.

Lemma flushes_cons c l : flushes (c :: l) = (if is_flush c then 1 else 0) + flushes l.
Proof. by destruct c. Qed.

Lemma blits_draws fig (arts : list ref) : blits (map (DrawArtist fig) arts) = 0.
Proof. induction arts as [|a arts IH]; [done|]. exact IH. Qed.

Lemma blits_on_draw_calls s : blits (on_draw_calls s) = 0.
Proof. unfold on_draw_calls. by rewrite blits_cons, blits_draws. Qed.

Lemma blits_update_calls s :
  blits (update_calls s) = if has_snapshot s then 1 else 0.
Proof.
  unfold update_calls, has_snapshot. rewrite blits_app. destruct (_bg s).
  - by rewrite blits_cons, blits_app, blits_draws.
  - by rewrite blits_on_draw_calls.
Qed.

Lemma blits_blit_frames s r n : blits (blit_frames s r n) = n.
Proof.
  unfold blit_frames. induction n as [|n IH]; [done|].
  simpl. rewrite blits_cons, !blits_app, IH, blits_draws. done.
Qed.

Lemma flushes_blit_frames s r n : flushes (blit_frames s r n) = n.
Proof.
  unfold blit_frames. induction n as [|n IH]; [done|].
  simpl. rewrite flushes_cons, !flushes_app, IH, flushes_draws. done.
Qed.

Lemma add_artist_accepts art w :
  belongs w art -> add_artist art w = Ok tt (registered w art).
Proof.
  intros Hb. rewrite add_artist_eq.
  apply figure_ne_false in Hb. by rewrite Hb.
Qed.

(** X3: [add_artist] does not look for the artist in the list: adding an
    artist a second time succeeds, lists it a second time and leaves the
    artist as the first call left it, and from then on every redraw draws
    it twice. *)
Theorem add_artist_twice_draws_twice (art : ref) (w : World) :
  belongs w art ->
  exists w1 w2 w3,
    add_artist art w = Ok tt w1
    /\ add_artist art w1 = Ok tt w2
    /\ _artists (self w2) = _artists (self w) ++ [art; art]
    /\ artists (toolkit w2) = artists (toolkit w1)
    /\ _draw_animated w2 = Ok tt w3
    /\ calls (toolkit w3)
       = calls (toolkit w2)
           ++ map (DrawArtist (figure (canvas (self w)))) (_artists (self w))
           ++ [DrawArtist (figure (canvas (self w))) art;
               DrawArtist (figure (canvas (self w))) art].
Proof.
  intros Hb.
  assert (Hb1 : belongs (registered w art) art) by by apply belongs_registered.
  exists (registered w art), (registered (registered w art) art).
  eexists. split; [|split; [|split; [|split; [|split]]]].
  - by apply add_artist_accepts.
  - by apply add_artist_accepts.
  - simpl. by rewrite <- app_assoc.
  - simpl. apply map_eq. intros i. rewrite !lookup_alter.
    repeat case_decide; subst; try done.
    by destruct (artists (toolkit w) !! i).
  - apply _draw_animated_eq.
  - simpl. by rewrite !map_app, <- !app_assoc.
Qed.

(** X4: an artist added after the background was captured does not make
    the manager capture again: the next [update] restores the snapshot
    taken before the artist was added and draws the artist last, on top
    of it. *)
Theorem late_artist_drawn_on_old_snapshot (art : ref) (r : Region) (w : World) :
  _bg (self w) = Some r ->
  belongs w art ->
  exists w',
    (add_artist art >>> update) w = Ok tt w'
    /\ calls (toolkit w')
       = calls (toolkit w)
           ++ [SetAnimated art true; RestoreRegion (canvas (self w)) r]
           ++ map (DrawArtist (figure (canvas (self w)))) (_artists (self w) ++ [art])
           ++ [Blit (canvas (self w)) (bbox (figure (canvas (self w))));
               FlushEvents (canvas (self w))]
    /\ _bg (self w') = Some r
    /\ captures (calls (toolkit w')) = captures (calls (toolkit w)).
Proof.
  intros Hbg Hb. unfold bind.
  rewrite add_artist_accepts by done.
  rewrite update_eq. simpl. rewrite Hbg.
  eexists. split; [done|]. unfold update_calls. simpl. rewrite Hbg.
  split; [by rewrite <- !app_assoc|]. split; [done|].
  repeat (rewrite ?captures_app, ?captures_cons). rewrite captures_draws.
  simpl. change (captures []) with 0. lia.
Qed.

(** X8: when [update] is called [n + 1] times on a manager that has no
    snapshot, with no draw event in between, the first call captures the
    background and does not blit, and each of the other [n] calls restores
    that capture and blits: one capture, [n] blits, [n + 1] flushes. *)
Theorem first_update_captures_rest_blit (n : nat) (w : World) :
  _bg (self w) = None ->
  exists w',
    run (replicate (S n) Update) w = Ok tt w'
    /\ calls (toolkit w')
       = calls (toolkit w)
           ++ on_draw_calls (self w)
           ++ FlushEvents (canvas (self w))
           :: blit_frames (self w) (captures (calls (toolkit w))) n
    /\ _bg (self w') = Some (captures (calls (toolkit w)))
    /\ captures (calls (toolkit w')) = S (captures (calls (toolkit w)))
    /\ blits (calls (toolkit w')) = blits (calls (toolkit w)) + n
    /\ flushes (calls (toolkit w')) = flushes (calls (toolkit w)) + S n.
Proof.
  intros Hbg. unfold run. simpl. unfold bind. rewrite update_eq, Hbg.
  fold (run (replicate n Update)).
  set (c := captures (calls (toolkit w))).
  rewrite (updates_reuse n _ c) by done.
  eexists. split; [done|]. simpl.
  change (blit_frames _ c n) with (blit_frames (self w) c n).
  unfold update_calls. rewrite Hbg.
  change (on_draw_calls _) with (on_draw_calls (self w)).
  split; [by rewrite <- !app_assoc|]. split; [done|].
  rewrite !captures_app, !blits_app, !flushes_app.
  rewrite captures_on_draw_calls, blits_on_draw_calls, flushes_on_draw_calls.
  rewrite captures_blit_frames, blits_blit_frames, flushes_blit_frames.
  change (captures [FlushEvents _]) with 0. change (blits [FlushEvents _]) with 0.
  change (flushes [FlushEvents _]) with 1. fold c.
  repeat split; lia.
Qed.

(** ** The renderer and the producers *)

Lemma is_frame_ne (d : vector) : is_frame d <-> d <> [].
Proof. unfold is_frame. destruct d; simpl; split; intros H; congruence || lia. Qed.

Lemma Forall_is_frame (q : list vector) : Forall is_frame q <-> [] ∉ q.
Proof.
  rewrite Forall_forall. split.
  - intros H Hin. by apply (H [] Hin).
  - intros H d Hd. apply is_frame_ne. intros ->. by apply H.
Qed.

(** A queue holds data frames only, or has a first sentinel. *)
Lemma first_sentinel (q : list vector) :
  Forall is_frame q
  \/ exists frames rest, q = frames ++ [] :: rest /\ Forall is_frame frames.
Proof.
  induction q as [|d q IH]; [by left|].
  destruct d as [|x d].
  - right. by exists [], q.
  - destruct IH as [Hall|(frames & rest & -> & Hfr)].
    + left. apply Forall_cons. split; [|done]. unfold is_frame. simpl. lia.
    + right. exists ((x :: d) :: frames), rest. split; [done|].
      apply Forall_cons. split; [|done]. unfold is_frame. simpl. lia.
Qed.

(** X9: the renderer raises nothing of its own, whatever the queue
    delivers and whenever the toolkit emits draw events (toolkit calls are
    taken to return): it leaves its loop if and only if the queue delivers
    an empty vector, and otherwise ends up waiting on the queue.  It stops
    at the first empty vector: the vectors before it, and only those, were
    handed to [set_ydata], and the vectors after it are left unread. *)
Theorem renderer_exits_iff_sentinel (draws : nat -> nat) (q : list vector)
    (n : nat) :
  (forall e, fst (animated_plot_process draws q n) <> Crashed e)
  /\ (fst (animated_plot_process draws q n) = Exited <-> [] ∈ q)
  /\ (fst (animated_plot_process draws q n) = Blocked <-> [] ∉ q)
  /\ (forall frames rest,
        q = frames ++ [] :: rest -> [] ∉ frames ->
        unread (snd (animated_plot_process draws q n)) = rest
        /\ ydatas (calls (toolkit (world (snd (animated_plot_process draws q n)))))
           = frames).
Proof.
  assert (Hlast : forall frames rest,
             q = frames ++ [] :: rest -> [] ∉ frames ->
             unread (snd (animated_plot_process draws q n)) = rest
             /\ ydatas (calls (toolkit (world (snd (animated_plot_process draws q n)))))
                = frames).
  { intros frames rest -> Hfr%Forall_is_frame.
    destruct (renderer_run draws n frames rest Hfr)
      as (r & Hrun & _ & Hun & Hy & _).
    unfold vector in *. rewrite Hrun. by split. }
  assert (Hout : (([] ∉ q) /\ fst (animated_plot_process draws q n) = Blocked)
                 \/ (([] ∈ q) /\ fst (animated_plot_process draws q n) = Exited)).
  { destruct (first_sentinel q) as [Hall|(frames & rest & -> & Hfr)].
    - destruct (renderer_waits draws n q Hall) as (r & -> & _).
      left. by apply Forall_is_frame in Hall.
    - destruct (renderer_run draws n frames rest Hfr) as (r & Hrun & _).
      right. unfold vector in *. rewrite Hrun. split; [|done].
      apply elem_of_app. right. apply elem_of_cons. by left. }
  split; [|split; [|split; [|exact Hlast]]];
    destruct Hout as [[Hq ->]|[Hq ->]]; try done.
Qed.

(** X12: the label tells the frame: two frame numbers with the same
    label are the same number, and no frame is labelled like the label the
    window starts with. *)
Theorem frame_label_tells_frame (i j : nat) :
  (frame_label i = frame_label j -> i = j) /\ frame_label i <> "0".
Proof.
  split; [|done].
  unfold frame_label. intros H. apply (inj (String.app "frame: ")) in H.
  by apply (inj pretty) in H.
Qed.

(** What [main] amounts to. *)
Lemma main_run rnd draws :
  let frames := map (fun j => random rnd j 400) (seq 0 100) in
  Forall is_frame frames
  /\ renderer (main rnd draws) = animated_plot_process draws (frames ++ [[]]) 400
  /\ puts (actions (main rnd draws)) = frames ++ [[]].
Proof.
  intros frames.
  assert (Hfr : Forall is_frame frames).
  { apply Forall_map, Forall_forall. intros j _. unfold is_frame.
    by rewrite random_length. }
  split; [done|].
  destruct (renderer_run draws 400 frames [] Hfr) as (r & Hrun & _).
  assert (Hputs : puts ((foldl (fun acts j => acts ++ [Put (random rnd j 400); PrintLatency])
                           [Start] (seq 0 100)) ++ [Put []]) = frames ++ [[]]).
  { by rewrite produced_eq, !puts_app, puts_produced. }
  unfold main. cbv zeta. rewrite Hputs, Hrun. cbn [fst exitcode actions renderer].
  split; [done|]. rewrite puts_app, Hputs.
  change (puts [Join; _; _]) with (@nil vector). by rewrite app_nil_r.
Qed.


(** X14: in the demo the label is set to ["frame: 1"], ...,
    ["frame: 100"], once per vector of random numbers, and the renderer
    exits with its counter at 101, the sentinel being the 101st vector it
    takes from the queue. *)
Theorem demo_counts_to_101 (rnd : nat -> nat -> sample) (draws : nat -> nat) :
  fst (renderer (main rnd draws)) = Exited
  /\ frame_num (snd (renderer (main rnd draws))) = 101
  /\ texts (calls (toolkit (world (snd (renderer (main rnd draws))))))
     = map frame_label (seq 1 100)
  /\ last (texts (calls (toolkit (world (snd (renderer (main rnd draws)))))))
     = Some (frame_label 100)
  /\ flushes (calls (toolkit (world (snd (renderer (main rnd draws)))))) = 100.
Proof.
  destruct (main_run rnd draws) as (Hfr & -> & _).
  destruct (renderer_run draws 400 _ [] Hfr)
    as (r & -> & Hnum & _ & _ & Ht & Hfl & _).
  rewrite length_map, length_seq in Hnum, Ht, Hfl.
  cbn [fst snd]. split; [done|]. split; [done|]. split; [done|]. split; [|done].
  rewrite Ht. change (seq 1 100) with (seq 1 99 ++ [100]).
  rewrite map_app. change (map frame_label [100]) with [frame_label 100].
  by rewrite last_snoc.
Qed.

(** ** What the renderer shows and how often it redraws *)

Lemma dispatch_draws_counts n w :
  exists w',
    dispatch_draws n w = Ok tt w'
    /\ artists (toolkit w') = artists (toolkit w)
    /\ captures (calls (toolkit w')) = captures (calls (toolkit w)) + n
    /\ blits (calls (toolkit w')) = blits (calls (toolkit w))
    /\ has_snapshot (self w') = has_snapshot (self w) || (0 <? n).
Proof.
  revert w. induction n as [|n IH]; intros w; simpl.
  - exists w. rewrite orb_false_r. repeat split; lia.
  - unfold bind, attr. rewrite on_draw_eq by done.
    match goal with |- context [dispatch_draws n ?w1] =>
      destruct (IH w1) as (w' & -> & Hst & Hcap & Hbl & Hsnap) end.
    exists w'. split; [done|]. simpl in Hst, Hcap, Hbl, Hsnap.
    rewrite captures_app, captures_on_draw_calls in Hcap.
    rewrite blits_app, blits_on_draw_calls in Hbl.
    rewrite Hst, Hcap, Hbl, Hsnap. unfold has_snapshot. simpl.
    rewrite orb_true_r. repeat split; lia.
Qed.

Lemma update_counts w :
  exists w',
    update w = Ok tt w'
    /\ artists (toolkit w') = artists (toolkit w)
    /\ captures (calls (toolkit w'))
       = captures (calls (toolkit w)) + (if has_snapshot (self w) then 0 else 1)
    /\ blits (calls (toolkit w'))
       = blits (calls (toolkit w)) + (if has_snapshot (self w) then 1 else 0)
    /\ has_snapshot (self w') = true.
Proof.
  eexists. split; [apply update_eq|].
  assert (Hcap := captures_update_calls (self w)).
  assert (Hbl := blits_update_calls (self w)).
  unfold has_snapshot in *.
  destruct (_bg (self w)) as [r|] eqn:Hbg; simpl;
    rewrite captures_app, blits_app, Hcap, Hbl, ?Hbg; done.
Qed.

(** One turn of the loop on a data frame, with what it leaves in the
    store and how it redraws. *)
Lemma frame_turn_counts (k : nat) (a b : ref) (d : vector) (lab : string) w :
  exists w',
    (set_ydata a d >>> set_text b lab >>> update >>> dispatch_draws k) w
    = Ok tt w'
    /\ artists (toolkit w')
       = alter (put_text lab) b (alter (put_ydata d) a (artists (toolkit w)))
    /\ captures (calls (toolkit w'))
       = captures (calls (toolkit w)) + (if has_snapshot (self w) then 0 else 1) + k
    /\ blits (calls (toolkit w'))
       = blits (calls (toolkit w)) + (if has_snapshot (self w) then 1 else 0)
    /\ has_snapshot (self w') = true.
Proof.
  set (w2 := alter_artist (put_text lab) b
               (logged [SetText b lab]
                  (alter_artist (put_ydata d) a (logged [SetYdata a d] w)))).
  destruct (update_counts w2) as (w3 & Hupd & Hst3 & Hcap3 & Hbl3 & Hsnap3).
  destruct (dispatch_draws_counts k w3) as (w' & Hdis & Hst & Hcap & Hbl & Hsnap).
  exists w'. split; [|split; [|split; [|split]]].
  - unfold bind, set_ydata, set_text. fold w2. by rewrite Hupd.
  - by rewrite Hst, Hst3.
  - rewrite Hcap, Hcap3. subst w2. simpl.
    rewrite <- app_assoc, captures_app. simpl.
    change (captures [SetYdata a d; SetText b lab]) with 0. lia.
  - rewrite Hbl, Hbl3. subst w2. simpl.
    rewrite <- app_assoc, blits_app. simpl.
    change (blits [SetYdata a d; SetText b lab]) with 0. lia.
  - by rewrite Hsnap, Hsnap3.
Qed.

Lemma shows_after_turn (a b : ref) (d d0 : vector) (lab s0 : string) w w' :
  a <> b ->
  shows w a b d0 s0 ->
  artists (toolkit w')
  = alter (put_text lab) b (alter (put_ydata d) a (artists (toolkit w))) ->
  shows w' a b d lab.
Proof.
  intros Hab [Ha Hb] Hst. unfold shows. rewrite Hst. split.
  - rewrite lookup_alter_ne by done. rewrite lookup_alter_eq.
    destruct (artists (toolkit w) !! a) as [x|]; [|done].
    destruct x as [f an sh]. simpl in *. injection Ha as ->. done.
  - rewrite lookup_alter_eq, lookup_alter_ne by done.
    destruct (artists (toolkit w) !! b) as [x|]; [|done].
    destruct x as [f an sh]. simpl in *. injection Hb as ->. done.
Qed.

(** The loop over data frames: what is in the store afterwards. *)
Lemma render_loop_shows draws frames q r d0 s0 :
  Forall is_frame frames ->
  ln r <> fr_number r ->
  shows (world r) (ln r) (fr_number r) d0 s0 ->
  exists r',
    render_loop draws (frames ++ q) r = render_loop draws q r'
    /\ ln r' = ln r /\ fr_number r' = fr_number r
    /\ data r' = default (data r) (last frames)
    /\ shows (world r') (ln r) (fr_number r)
         (default d0 (last frames))
         (match frames with
          | [] => s0
          | _ => frame_label (frame_num r + length frames)
          end).
Proof.
  intros Hfr. revert r d0 s0.
  induction Hfr as [|d frames Hd Hfr IH]; intros r d0 s0 Hne Hsh.
  - by exists r.
  - change ((d :: frames) ++ q) with (d :: (frames ++ q)). cbn [render_loop].
    unfold is_frame in Hd. apply Nat.eqb_neq in Hd. rewrite Hd.
    destruct (frame_turn_counts (draws (frame_num r + 1)) (ln r) (fr_number r) d
                (frame_label (frame_num r + 1)) (world r))
      as (w' & -> & Hst & _).
    match goal with |- context [render_loop draws (frames ++ q) ?r1] =>
      destruct (IH r1 d (frame_label (frame_num r + 1)))
        as (r' & -> & Hln & Hfrn & Hdata & Hsh') end.
    { done. }
    { simpl. by eapply shows_after_turn. }
    simpl in Hln, Hfrn, Hdata, Hsh'.
    exists r'. split; [done|]. split; [done|]. split; [done|].
    rewrite last_cons.
    destruct frames as [|d' frames].
    + simpl in *. by split.
    + destruct (last (d' :: frames)) as [x|] eqn:Hlast;
        [|by apply last_None in Hlast].
      simpl in *. split; [done|].
      by replace (frame_num r + S (S (length frames)))
        with (frame_num r + 1 + S (length frames)) by lia.
Qed.

(** The loop over data frames: how often it captures and blits. *)
Lemma render_loop_redraws draws frames q r :
  Forall is_frame frames ->
  exists r',
    render_loop draws (frames ++ q) r = render_loop draws q r'
    /\ captures (calls (toolkit (world r')))
       = captures (calls (toolkit (world r)))
         + sum_list (map draws (seq (S (frame_num r)) (length frames)))
         + (if has_snapshot (self (world r)) then 0
            else match frames with [] => 0 | _ => 1 end)
    /\ blits (calls (toolkit (world r')))
         + (if has_snapshot (self (world r)) then 0
            else match frames with [] => 0 | _ => 1 end)
       = blits (calls (toolkit (world r))) + length frames.
Proof.
  intros Hfr. revert r. induction Hfr as [|d frames Hd Hfr IH]; intros r.
  - exists r. simpl. split; [done|]. destruct (has_snapshot _); lia.
  - change ((d :: frames) ++ q) with (d :: (frames ++ q)). cbn [render_loop].
    unfold is_frame in Hd. apply Nat.eqb_neq in Hd. rewrite Hd.
    destruct (frame_turn_counts (draws (frame_num r + 1)) (ln r) (fr_number r) d
                (frame_label (frame_num r + 1)) (world r))
      as (w' & -> & _ & Hcap & Hbl & Hsnap).
    match goal with |- context [render_loop draws (frames ++ q) ?r1] =>
      destruct (IH r1) as (r' & -> & Hcap' & Hbl') end.
    simpl in Hcap', Hbl'. rewrite Hsnap in Hcap', Hbl'.
    exists r'. split; [done|].
    rewrite Hcap', Hcap. rewrite Hbl in Hbl'.
    cbn [length seq map sum_list]. rewrite Nat.add_1_r. unfold id.
    destruct (has_snapshot (self (world r))); lia.
Qed.

(** Everything up to the loop, with the window it leaves. *)
Lemma setup_window draws q n :
  exists r0,
    animated_plot_process draws q n = render_loop draws q r0
    /\ frame_num r0 = 0 /\ ln r0 = 0 /\ fr_number r0 = 1
    /\ data r0 = replicate n zero
    /\ shows (world r0) 0 1 (replicate n zero) "0"
    /\ captures (calls (toolkit (world r0))) = draws 0
    /\ blits (calls (toolkit (world r0))) = 0
    /\ has_snapshot (self (world r0)) = (0 <? draws 0).
Proof.
  unfold animated_plot_process, __init__.
  match goal with |- context [(for_each _ add_artist >>> _) ?w] => set (w0 := w) end.
  unfold bind at 1.
  match goal with |- context [for_each ?l add_artist w0] =>
    destruct (add_artists l w0) as [[_ ->]|[Hnot _]];
      [|destruct Hnot; by repeat constructor]
  end.
  unfold bind at 1. unfold mpl_connect, set_cid, call. unfold bind at 1. unfold bind at 1.
  match goal with |- context [dispatch_draws (draws 0) ?w1] =>
    destruct (dispatch_draws_counts (draws 0) w1)
      as (w' & -> & Hst & Hcap & Hbl & Hsnap)
  end.
  eexists. split; [done|]. simpl.
  rewrite Hcap, Hbl, Hsnap. unfold shows. rewrite Hst.
  repeat split.
Qed.

(** X10: the window shows the last data frame received.  When the
    renderer has left its loop, and likewise while it waits for the next
    vector, the line holds the last data frame and the label reads that
    frame's number; if no data frame came, the line still holds the zeros
    and the label the ["0"] they were created with.  On exit the variable
    [data] holds the sentinel. *)
Theorem renderer_shows_last_frame (draws : nat -> nat) (n : nat)
    (frames rest : list vector) :
  Forall is_frame frames ->
  let curve := default (replicate n zero) (last frames) in
  let label := match frames with
               | [] => "0"
               | _ => frame_label (length frames)
               end in
  (exists r,
      animated_plot_process draws (frames ++ [] :: rest) n = (Exited, r)
      /\ shows (world r) (ln r) (fr_number r) curve label
      /\ data r = [])
  /\ (exists r,
        animated_plot_process draws frames n = (Blocked, r)
        /\ shows (world r) (ln r) (fr_number r) curve label
        /\ data r = curve).
Proof.
  intros Hfr curve label. split.
  - destruct (setup_window draws (frames ++ [] :: rest) n)
      as (r0 & -> & Hnum & Hln & Hfrn & Hdata & Hsh & _).
    destruct (render_loop_shows draws frames ([] :: rest) r0
                (replicate n zero) "0" Hfr)
      as (r1 & -> & Hln1 & Hfrn1 & Hdata1 & Hsh1).
    { by rewrite Hln, Hfrn. }
    { rewrite Hln, Hfrn. exact Hsh. }
    cbn [render_loop]. simpl length. cbn [Nat.eqb]. unfold bind, call.
    eexists. split; [done|]. simpl. rewrite Hln1, Hfrn1, Hln, Hfrn.
    rewrite Hln, Hfrn, Hnum in Hsh1. split; [|done]. exact Hsh1.
  - destruct (setup_window draws frames n)
      as (r0 & -> & Hnum & Hln & Hfrn & Hdata & Hsh & _).
    destruct (render_loop_shows draws frames [] r0 (replicate n zero) "0" Hfr)
      as (r1 & Hloop & Hln1 & Hfrn1 & Hdata1 & Hsh1).
    { by rewrite Hln, Hfrn. }
    { rewrite Hln, Hfrn. exact Hsh. }
    rewrite app_nil_r in Hloop. rewrite Hloop. cbn [render_loop].
    exists r1. split; [done|]. rewrite Hln1, Hfrn1, Hln, Hfrn.
    rewrite Hln, Hfrn, Hnum in Hsh1. rewrite Hdata in Hdata1. by split.
Qed.

(** X11: how often the renderer captures and blits.  After [k] data
    frames and the sentinel it has blitted every frame, except the first
    when no draw event arrived while [plt.pause] ran: that frame only
    triggers the capture [update] forces.  It has captured the background
    once per draw event emitted up to the last frame, plus once for that
    forced capture. *)
Theorem renderer_blits_all_but_missed_first (draws : nat -> nat) (n : nat)
    (frames rest : list vector) :
  Forall is_frame frames ->
  exists r,
    animated_plot_process draws (frames ++ [] :: rest) n = (Exited, r)
    /\ blits (calls (toolkit (world r)))
       = length frames - (if draws 0 =? 0 then 1 else 0)
    /\ captures (calls (toolkit (world r)))
       = draws_upto draws (length frames)
         + (if (draws 0 =? 0) && negb (length frames =? 0) then 1 else 0).
Proof.
  intros Hfr.
  destruct (setup_window draws (frames ++ [] :: rest) n)
    as (r0 & -> & Hnum & _ & _ & _ & _ & Hcap0 & Hbl0 & Hsnap0).
  destruct (render_loop_redraws draws frames ([] :: rest) r0 Hfr)
    as (r1 & -> & Hcap & Hbl).
  cbn [render_loop]. simpl length. cbn [Nat.eqb]. unfold bind, call.
  eexists. split; [done|]. simpl.
  rewrite <- app_assoc, captures_app, blits_app.
  change (captures ([Print _] ++ [PltClose])) with 0.
  change (blits ([Print _] ++ [PltClose])) with 0.
  rewrite Hcap, Hcap0, Hnum. rewrite Hbl0, Hsnap0 in Hbl. rewrite Hsnap0.
  unfold draws_upto. cbn [seq map sum_list]. unfold id.
  set (later := sum_list_with _ _). clearbody later.
  destruct (draws 0) as [|k0]; destruct frames as [|d frames']; simpl in *; lia.
Qed.

End Model.

Arguments Ok {sample A} a w.
Arguments Raise {sample A} e w.

(** * The properties at sample states *)

Lemma on_draw_captures_then_renders_witness :
  canvas_id (event_canvas {| event_canvas := demo_canvas |})
  = canvas_id (canvas (self (@demo_world nat)))
  /\ exists w' : @World nat,
      on_draw (Some {| event_canvas := demo_canvas |}) (@demo_world nat) = Ok tt w'
      /\ calls (toolkit w')
         = [MplConnect demo_canvas "draw_event";
            CopyFromBbox demo_canvas (bbox 0); DrawArtist 0 0; DrawArtist 0 1;
            CopyFromBbox demo_canvas (bbox 0); DrawArtist 0 0; DrawArtist 0 1]
      /\ _bg (self w') = Some 1
      /\ captures (calls (toolkit w')) = 2
      /\ (forall r, r < 1 -> _bg (self w') <> Some r)
      /\ canvas (self w') = demo_canvas
      /\ _artists (self w') = [0; 1]
      /\ artists (toolkit w') = artists (toolkit (@demo_world nat)).
Proof.
  split; [reflexivity|].
  apply (on_draw_captures_then_renders {| event_canvas := demo_canvas |} (@demo_world nat)).
  reflexivity.
Defined.

Lemma on_draw_foreign_canvas_raises_witness :
  canvas_id (event_canvas {| event_canvas := other_canvas |})
  <> canvas_id (canvas (self (@demo_world nat)))
  /\ on_draw (Some {| event_canvas := other_canvas |}) (@demo_world nat)
     = Raise RuntimeError (@demo_world nat)
  /\ (forall (B : Type) (k : unit -> M B),
        bind (on_draw (Some {| event_canvas := other_canvas |})) k (@demo_world nat)
        = Raise RuntimeError (@demo_world nat))
  /\ (forall ops,
        run (Draw {| event_canvas := other_canvas |} :: ops) (@demo_world nat)
        = Raise RuntimeError (@demo_world nat)).
Proof.
  split; [simpl; lia|].
  apply (on_draw_foreign_canvas_raises {| event_canvas := other_canvas |} (@demo_world nat)).
  simpl; lia.
Defined.

Lemma update_restores_draws_blits_flushes_witness :
  _bg (self (@demo_world nat)) = Some 0
  /\ exists w' : @World nat,
      update (@demo_world nat) = Ok tt w'
      /\ calls (toolkit w')
         = [MplConnect demo_canvas "draw_event";
            CopyFromBbox demo_canvas (bbox 0); DrawArtist 0 0; DrawArtist 0 1;
            RestoreRegion demo_canvas 0; DrawArtist 0 0; DrawArtist 0 1;
            Blit demo_canvas (bbox 0); FlushEvents demo_canvas]
      /\ self w' = self (@demo_world nat)
      /\ artists (toolkit w') = artists (toolkit (@demo_world nat)).
Proof.
  split; [reflexivity|].
  apply (update_restores_draws_blits_flushes (@demo_world nat) 0). reflexivity.
Defined.

Lemma snapshot_once_per_full_redraw_witness :
  let ev := {| event_canvas := demo_canvas |} in
  let ops := [Update; Draw ev; Update; Update; Draw ev] in
  Forall (managed (canvas (self (@fresh_world nat)))) ops
  /\ canvas_id (event_canvas ev) = canvas_id (canvas (self (@fresh_world nat)))
  /\ (exists w1 : @World nat,
        run ops (@fresh_world nat) = Ok tt w1
        /\ captures (calls (toolkit w1)) = 0 + 3)
  /\ (exists w2 : @World nat,
        run (Draw ev :: replicate 2 Update) (@fresh_world nat) = Ok tt w2
        /\ captures (calls (toolkit w2)) = 1
        /\ _bg (self w2) = Some 0
        /\ calls (toolkit w2)
           = [MplConnect demo_canvas "draw_event";
              CopyFromBbox demo_canvas (bbox 0); DrawArtist 0 0; DrawArtist 0 1;
              RestoreRegion demo_canvas 0; DrawArtist 0 0; DrawArtist 0 1;
              Blit demo_canvas (bbox 0); FlushEvents demo_canvas;
              RestoreRegion demo_canvas 0; DrawArtist 0 0; DrawArtist 0 1;
              Blit demo_canvas (bbox 0); FlushEvents demo_canvas])
  /\ (exists w3 : @World nat,
        run [Draw ev; Draw ev] (@fresh_world nat) = Ok tt w3
        /\ captures (calls (toolkit w3)) = 2
        /\ _bg (self w3) = Some 1
        /\ calls (toolkit w3)
           = [MplConnect demo_canvas "draw_event";
              CopyFromBbox demo_canvas (bbox 0); DrawArtist 0 0; DrawArtist 0 1;
              CopyFromBbox demo_canvas (bbox 0); DrawArtist 0 0; DrawArtist 0 1]).
Proof.
  intros ev ops.
  assert (Hops : Forall (managed (canvas (self (@fresh_world nat)))) ops).
  { repeat constructor. }
  split; [exact Hops|]. split; [reflexivity|].
  apply (snapshot_once_per_full_redraw ops ev ev 2 (@fresh_world nat) Hops);
    reflexivity.
Defined.

Lemma frame_counter_counts_every_get_witness :
  let frames : list (list nat) := [[3; 1; 4]; [1; 5; 9]] in
  Forall is_frame frames
  /\ (forall q,
        frame_num (snd (animated_plot_process 0 (fun _ => 1) q 3))
          + length (unread (snd (animated_plot_process 0 (fun _ => 1) q 3)))
        = length q)
  /\ (exists r,
        animated_plot_process 0 (fun _ => 1) frames 3 = (Blocked, r)
        /\ frame_num r = 2
        /\ texts (calls (toolkit (world r))) = ["frame: 1"; "frame: 2"])
  /\ (exists r,
        animated_plot_process 0 (fun _ => 1) (frames ++ [] :: [[2; 6; 5]]) 3
        = (Exited, r)
        /\ frame_num r = 3
        /\ texts (calls (toolkit (world r))) = ["frame: 1"; "frame: 2"]).
Proof.
  intros frames.
  assert (Hfr : Forall is_frame frames).
  { repeat constructor; unfold is_frame; simpl; lia. }
  split; [exact Hfr|].
  apply (frame_counter_counts_every_get 0 (fun _ => 1) 3 frames [[2; 6; 5]] Hfr).
Defined.

Lemma sentinel_ends_renderer_witness :
  let frames : list (list nat) := [[3; 1; 4]; [1; 5; 9]] in
  Forall is_frame frames
  /\ exists r,
      animated_plot_process 0 (fun _ => 1) (frames ++ [] :: [[2; 6; 5]]) 3
      = (Exited, r)
      /\ unread r = [[2; 6; 5]]
      /\ ydatas (calls (toolkit (world r))) = frames
      /\ flushes (calls (toolkit (world r))) = 2
      /\ closes (calls (toolkit (world r))) = 1
      /\ last (calls (toolkit (world r))) = Some PltClose.
Proof.
  intros frames.
  assert (Hfr : Forall is_frame frames).
  { repeat constructor; unfold is_frame; simpl; lia. }
  split; [exact Hfr|].
  apply (sentinel_ends_renderer 0 (fun _ => 1) 3 frames [[2; 6; 5]] Hfr).
Defined.

(** C1 as the specification words it fails when the sentinel is the first
    vector received: no data frame was consumed, the renderer has exited,
    and its counter is 1. *)
Lemma immediate_sentinel_counter_is_one :
  let run := animated_plot_process (0 : nat) (fun _ => 0) [[]] 400 in
  fst run = Exited
  /\ ydatas (calls (toolkit (world (snd run)))) = []
  /\ frame_num (snd run) = 1
  /\ frame_num (snd run) <> 0.
Proof. vm_compute. repeat split. discriminate. Qed.

(** * Sample runs *)

(** Two frames, the sentinel, and a vector that is never read; the window
    was drawn once while [plt.pause] ran. *)
Example two_frames_then_sentinel :
  let run := animated_plot_process (0 : nat) (fun j => if j =? 0 then 1 else 0)
               [[3; 1; 4]; [1; 5; 9]; []; [2; 6; 5]] 3 in
  fst run = Exited
  /\ frame_num (snd run) = 3
  /\ unread (snd run) = [[2; 6; 5]]
  /\ calls (toolkit (world (snd run)))
     = [MatplotlibUse "Qt5Agg"; SetAnimated 0 true; SetAnimated 1 true;
        MplConnect demo_canvas "draw_event"; PltShow; PltPause;
        CopyFromBbox demo_canvas (bbox 0); DrawArtist 0 0; DrawArtist 0 1;
        SetYdata 0 [3; 1; 4]; SetText 1 "frame: 1";
        RestoreRegion demo_canvas 0; DrawArtist 0 0; DrawArtist 0 1;
        Blit demo_canvas (bbox 0); FlushEvents demo_canvas;
        SetYdata 0 [1; 5; 9]; SetText 1 "frame: 2";
        RestoreRegion demo_canvas 0; DrawArtist 0 0; DrawArtist 0 1;
        Blit demo_canvas (bbox 0); FlushEvents demo_canvas;
        Print "Breaking..."; PltClose]
  /\ shape <$> artists (toolkit (world (snd run))) !! 1
     = Some (Annotation "frame: 2")
  /\ shape <$> artists (toolkit (world (snd run))) !! 0
     = Some (Line2D [1; 5; 9]).
Proof. vm_compute. repeat split. Qed.

(** The draw event was missed: the first [update] captures the background
    itself and does not blit; the queue then runs dry. *)
Example missed_draw_event :
  let run := animated_plot_process (0 : nat) (fun _ => 0) [[3; 1; 4]] 3 in
  fst run = Blocked
  /\ frame_num (snd run) = 1
  /\ calls (toolkit (world (snd run)))
     = [MatplotlibUse "Qt5Agg"; SetAnimated 0 true; SetAnimated 1 true;
        MplConnect demo_canvas "draw_event"; PltShow; PltPause;
        SetYdata 0 [3; 1; 4]; SetText 1 "frame: 1";
        CopyFromBbox demo_canvas (bbox 0); DrawArtist 0 0; DrawArtist 0 1;
        FlushEvents demo_canvas].
Proof. vm_compute. repeat split. Qed.

(** The demo: the last label shown is ["frame: 100"]; the sentinel is the
    101st vector taken from the queue. *)
Example demo_session :
  let m := main (0 : nat) (fun j i => j + i) (fun _ => 0) in
  length (actions m) = 205
  /\ last (actions m) = Some (PrintLine "finished animate process")
  /\ fst (renderer m) = Exited
  /\ frame_num (snd (renderer m)) = 101
  /\ shape <$> artists (toolkit (world (snd (renderer m)))) !! 1
     = Some (Annotation "frame: 100").
Proof. vm_compute. repeat split. Qed.

(** Artist 2 is in the figure of another window. *)
Example add_artist_elsewhere :
  add_artist 2 (@demo_world nat) = Raise RuntimeError demo_world.
Proof. reflexivity. Qed.

Example init_with_artist_elsewhere :
  match __init__ demo_canvas [0; 2; 1] (@demo_toolkit nat []) with
  | Raise RuntimeError w =>
      _artists (self w) = [0] /\ _bg (self w) = None /\ cid (self w) = None
      /\ calls (toolkit w) = [SetAnimated 0 true]
  | Ok _ _ => False
  end.
Proof. vm_compute. repeat split. Qed.

(** * The further properties at sample states *)

Lemma init_registers_then_connects_witness :
  Forall (fun a => figure_of (@demo_toolkit nat []) a = Some (figure demo_canvas))
    [0; 1]
  /\ exists w' : @World nat,
      __init__ demo_canvas [0; 1] (demo_toolkit []) = Ok tt w'
      /\ canvas (self w') = demo_canvas
      /\ _bg (self w') = None
      /\ _artists (self w') = [0; 1]
      /\ cid (self w') = Some 0
      /\ calls (toolkit w')
         = [SetAnimated 0 true; SetAnimated 1 true;
            MplConnect demo_canvas "draw_event"]
      /\ (forall a, a ∈ [0; 1] -> animated <$> artists (toolkit w') !! a = Some true)
      /\ (forall a, a ∉ [0; 1] ->
            artists (toolkit w') !! a = artists (@demo_toolkit nat []) !! a).
Proof.
  assert (H : Forall (fun a => figure_of (@demo_toolkit nat []) a
                               = Some (figure demo_canvas)) [0; 1]).
  { repeat constructor. }
  split; [exact H|].
  apply (init_registers_then_connects demo_canvas [0; 1] (demo_toolkit []) H).
Defined.

Lemma init_stops_at_first_foreign_artist_witness :
  Forall (fun a => figure_of (@demo_toolkit nat []) a = Some (figure demo_canvas)) [0]
  /\ figure_of (@demo_toolkit nat []) 2 <> Some (figure demo_canvas)
  /\ exists w' : @World nat,
      __init__ demo_canvas ([0] ++ 2 :: [1]) (demo_toolkit [])
      = Raise RuntimeError w'
      /\ _artists (self w') = [0]
      /\ cid (self w') = None
      /\ calls (toolkit w') = [SetAnimated 0 true]
      /\ (forall a, a ∈ [0] -> animated <$> artists (toolkit w') !! a = Some true)
      /\ (forall a, a ∉ [0] ->
            artists (toolkit w') !! a = artists (@demo_toolkit nat []) !! a).
Proof.
  assert (H : Forall (fun a => figure_of (@demo_toolkit nat []) a
                               = Some (figure demo_canvas)) [0]).
  { repeat constructor. }
  assert (H2 : figure_of (@demo_toolkit nat []) 2 <> Some (figure demo_canvas)).
  { discriminate. }
  split; [exact H|]. split; [exact H2|].
  apply (init_stops_at_first_foreign_artist demo_canvas [0] 2 [1] (demo_toolkit [])
           H H2).
Defined.

Lemma add_artist_twice_draws_twice_witness :
  belongs (@demo_world nat) 1
  /\ exists w1 w2 w3 : @World nat,
      add_artist 1 (@demo_world nat) = Ok tt w1
      /\ add_artist 1 w1 = Ok tt w2
      /\ _artists (self w2) = [0; 1; 1; 1]
      /\ artists (toolkit w2) = artists (toolkit w1)
      /\ _draw_animated w2 = Ok tt w3
      /\ calls (toolkit w3)
         = calls (toolkit w2)
             ++ [DrawArtist 0 0; DrawArtist 0 1; DrawArtist 0 1; DrawArtist 0 1].
Proof.
  split; [reflexivity|].
  apply (add_artist_twice_draws_twice 1 (@demo_world nat)). reflexivity.
Defined.

Lemma late_artist_drawn_on_old_snapshot_witness :
  _bg (self (@demo_world nat)) = Some 0
  /\ belongs (@demo_world nat) 1
  /\ exists w' : @World nat,
      bind (add_artist 1) (fun _ => update) (@demo_world nat) = Ok tt w'
      /\ calls (toolkit w')
         = [MplConnect demo_canvas "draw_event";
            CopyFromBbox demo_canvas (bbox 0); DrawArtist 0 0; DrawArtist 0 1;
            SetAnimated 1 true; RestoreRegion demo_canvas 0;
            DrawArtist 0 0; DrawArtist 0 1; DrawArtist 0 1;
            Blit demo_canvas (bbox 0); FlushEvents demo_canvas]
      /\ _bg (self w') = Some 0
      /\ captures (calls (toolkit w')) = 1.
Proof.
  split; [reflexivity|]. split; [reflexivity|].
  apply (late_artist_drawn_on_old_snapshot 1 0 (@demo_world nat)); reflexivity.
Defined.


Lemma first_update_captures_rest_blit_witness :
  _bg (self (@fresh_world nat)) = None
  /\ exists w' : @World nat,
      run (replicate 3 Update) (@fresh_world nat) = Ok tt w'
      /\ calls (toolkit w')
         = [MplConnect demo_canvas "draw_event";
            CopyFromBbox demo_canvas (bbox 0); DrawArtist 0 0; DrawArtist 0 1;
            FlushEvents demo_canvas;
            RestoreRegion demo_canvas 0; DrawArtist 0 0; DrawArtist 0 1;
            Blit demo_canvas (bbox 0); FlushEvents demo_canvas;
            RestoreRegion demo_canvas 0; DrawArtist 0 0; DrawArtist 0 1;
            Blit demo_canvas (bbox 0); FlushEvents demo_canvas]
      /\ _bg (self w') = Some 0
      /\ captures (calls (toolkit w')) = 1
      /\ blits (calls (toolkit w')) = 2
      /\ flushes (calls (toolkit w')) = 3.
Proof.
  split; [reflexivity|].
  apply (first_update_captures_rest_blit 2 (@fresh_world nat)). reflexivity.
Defined.

Lemma renderer_shows_last_frame_witness :
  let frames : list (list nat) := [[3; 1; 4]; [1; 5; 9]] in
  Forall is_frame frames
  /\ (exists r,
        animated_plot_process 0 (fun _ => 1) (frames ++ [] :: [[2; 6; 5]]) 3
        = (Exited, r)
        /\ shows (world r) (ln r) (fr_number r) [1; 5; 9] "frame: 2"
        /\ data r = [])
  /\ (exists r,
        animated_plot_process 0 (fun _ => 1) frames 3 = (Blocked, r)
        /\ shows (world r) (ln r) (fr_number r) [1; 5; 9] "frame: 2"
        /\ data r = [1; 5; 9]).
Proof.
  intros frames.
  assert (Hfr : Forall is_frame frames).
  { repeat constructor; unfold is_frame; simpl; lia. }
  split; [exact Hfr|].
  apply (renderer_shows_last_frame 0 (fun _ => 1) 3 frames [[2; 6; 5]] Hfr).
Defined.

Lemma renderer_blits_all_but_missed_first_witness :
  let frames : list (list nat) := [[3; 1; 4]; [1; 5; 9]] in
  Forall is_frame frames
  /\ exists r,
      animated_plot_process 0 (fun j => if j =? 2 then 1 else 0)
        (frames ++ [] :: [[2; 6; 5]]) 3
      = (Exited, r)
      /\ blits (calls (toolkit (world r))) = 1
      /\ captures (calls (toolkit (world r))) = 2.
Proof.
  intros frames.
  assert (Hfr : Forall is_frame frames).
  { repeat constructor; unfold is_frame; simpl; lia. }
  split; [exact Hfr|].
  apply (renderer_blits_all_but_missed_first 0 (fun j => if j =? 2 then 1 else 0)
           3 frames [[2; 6; 5]] Hfr).
Defined.

